(** * CogniWeave: the quickstart pipeline, the CLI demo and the utilities

    A shallow embedding of [cogniweave/utils.py], [cogniweave/quickstart.py]
    and [cogniweave/cli/__init__.py].

    Conventions.
    - A Python [str] is a [string]; the characters are the bytes of its UTF-8
      encoding.  The only character the code inspects is ["/"], an ASCII
      character that never occurs inside a multi-byte sequence, so splitting
      at that byte is splitting at that code point.
    - [str.lower] and [str.strip] belong to the Python runtime: they are the
      fields of the class [StrMethods], and every statement below holds for
      every instance.  [ascii_str] is the instance used to evaluate examples.
    - The [%Y] of [strftime] belongs to the platform: it is the field of the
      class [Strftime], which fixes it from year 1000 on; [glibc_strftime]
      is the instance used to evaluate examples.
    - A call that can raise returns a [result]; [os.environ] is a finite map
      that the callers pass in. *)

From Stdlib Require Import ZArith Lia Ascii String List Bool.
From stdpp Require Import base option gmap strings list fin_maps.

Local Open Scope string_scope.
Local Open Scope list_scope.
Local Open Scope Z_scope.

(** ** Python values shared by the three files *)

(** The exceptions that the modelled code and its stores raise. *)
Inductive exception :=
| ValueError (msg : string)
| OverflowError (msg : string)
| TypeError (msg : string)
| AttributeError (name : string)
| StorageError
| NotFoundError.

Inductive result (A : Type) :=
| Ok (a : A)
| Raise (e : exception).
Arguments Ok {A} a.
Arguments Raise {A} e.

#[global] Instance result_ret : MRet result := fun A a => Ok a.
#[global] Instance result_bind : MBind result := fun A B f r =>
  match r with
  | Ok a => f a
  | Raise e => Raise e
  end.

(** [str.lower] and [str.strip], as the runtime provides them. *)
Class StrMethods := {
  lower : string -> string;
  strip : string -> string
}.

(** Truth value of a [str]: the empty string is falsy. *)
Definition str_truthy (s : string) : bool :=
  match s with
  | EmptyString => false
  | String _ _ => true
  end.

(** [x or d] for [x : str | None]. *)
Definition str_or (x : option string) (d : string) : string :=
  match x with
  | Some s => if str_truthy s then s else d
  | None => d
  end.

(** The values that occur in the dictionaries the pipeline exchanges. *)
#[warnings="-register-all"]
Inductive pyvalue :=
| PyNone
| PyStr (s : string)
| PyList (items : list pyvalue).

(** [bool(v)] *)
Definition py_truthy (v : pyvalue) : bool :=
  match v with
  | PyNone => false
  | PyStr s => str_truthy s
  | PyList [] => false
  | PyList (_ :: _) => true
  end.

(** ** utils.py *)

Module Utils.

(** *** The regular expression [([^/]+)/([^/]+)] *)

(** Whether the character ["/"] occurs in [s]. *)
Fixpoint has_slash (s : string) : bool :=
  match s with
  | EmptyString => false
  | String c r => if Ascii.eqb c "/" then true else has_slash r
  end.

(** The longest prefix without ["/"], and what follows the first ["/"]. *)
Fixpoint break_slash (s : string) : string * option string :=
  match s with
  | EmptyString => (EmptyString, None)
  | String c r =>
      if Ascii.eqb c "/" then (EmptyString, Some r)
      else let '(a, b) := break_slash r in (String c a, b)
  end.

(** [re.fullmatch(r"([^/]+)/([^/]+)", s)]: the two groups, or [None].  The
    class [[^/]] accepts every character but ["/"] (a newline too), so a match
    is a non-empty run without ["/"], one ["/"], and a second such run that
    reaches the end of [s]. *)
Definition re_fullmatch (s : string) : option (string * string) :=
  match break_slash s with
  | (g1, Some g2) =>
      if str_truthy g1 && str_truthy g2 && negb (has_slash g2)
      then Some (g1, g2) else None
  | (_, None) => None
  end.

(** The regular expressions the pattern is made of: [[^c]], [c], [r+] and
    [r1r2]; and the strings that each matches in full. *)
Inductive regex :=
| NotChar (c : ascii)
| Char (c : ascii)
| Plus (r : regex)
| Seq (r1 r2 : regex).

Inductive fullmatches : regex -> string -> Prop :=
| match_NotChar c x : x <> c -> fullmatches (NotChar c) (String x EmptyString)
| match_Char c : fullmatches (Char c) (String c EmptyString)
| match_Plus_once r s : fullmatches r s -> fullmatches (Plus r) s
| match_Plus_more r s1 s2 :
    fullmatches r s1 -> fullmatches (Plus r) s2 ->
    fullmatches (Plus r) (s1 +:+ s2)
| match_Seq r1 r2 s1 s2 :
    fullmatches r1 s1 -> fullmatches r2 s2 ->
    fullmatches (Seq r1 r2) (s1 +:+ s2).

(** [([^/]+)/([^/]+)], the groups left out. *)
Definition provider_model_pattern : regex :=
  Seq (Plus (NotChar "/")) (Seq (Char "/") (Plus (NotChar "/"))).

(** The values of the exact form [A/B]: [a] and [b] are not empty and hold
    no ["/"]. *)
Definition exact_form (v a b : string) : Prop :=
  v = a +:+ "/" +:+ b /\ a <> "" /\ b <> "" /\
  has_slash a = false /\ has_slash b = false.

(** *** [get_provider_from_env] and [get_model_from_env] *)

(** The parameter [default: str | NotGiven | None = NOT_GIVEN]. *)
Inductive default_arg :=
| NOT_GIVEN
| DefaultNone
| DefaultStr (s : string).

(** The message of the final [ValueError]. *)
Definition did_not_find (key : string) : string :=
  "Did not find " +:+ key +:+ ", please add an environment variable"
  +:+ " `" +:+ key +:+ "` which contains it, or pass"
  +:+ " `" +:+ key +:+ "` as a named parameter.".

(** The text of the [ValueError] that the factories raise: [error_message]
    unless it is missing or empty. *)
Definition error_text (key : string) (error_message : option string)
    : string :=
  match error_message with
  | Some m => if str_truthy m then m else did_not_find key
  | None => did_not_find key
  end.

(** What both factories do once the environment gave no match. *)
Definition from_default (key : string) (default : default_arg)
    (error_message : option string) : result (option string) :=
  match default with
  | DefaultStr s => Ok (Some s)
  | DefaultNone => Ok None
  | NOT_GIVEN =>
      match error_message with
      | Some m =>
          if str_truthy m then Raise (ValueError m)
          else Raise (ValueError (did_not_find key))
      | None => Raise (ValueError (did_not_find key))
      end
  end.

(** The factory returned by [get_provider_from_env(key, default=...,
    error_message=...)]: a closure that reads [os.environ] when called. *)
Definition get_provider_from_env `{StrMethods} (key : string)
    (default : default_arg) (error_message : option string)
    (environ : gmap string string) : result (option string) :=
  match environ !! key with
  | Some v =>
      match re_fullmatch v with
      | Some (g1, _) => Ok (Some (lower g1))
      | None => from_default key default error_message
      end
  | None => from_default key default error_message
  end.

(** The factory returned by [get_model_from_env]. *)
Definition get_model_from_env `{StrMethods} (key : string)
    (default : default_arg) (error_message : option string)
    (environ : gmap string string) : result (option string) :=
  match environ !! key with
  | Some v =>
      match re_fullmatch v with
      | Some (_, g2) => Ok (Some (lower g2))
      | None => from_default key default error_message
      end
  | None => from_default key default error_message
  end.

(** *** [format_datetime_relative] *)

(** A [datetime.date]: proleptic Gregorian year, month and day. *)
Record date := mkdate { year : Z; month : Z; day : Z }.

(** A naive [datetime.datetime]. *)
Record datetime := mkdatetime {
  dt_year : Z; dt_month : Z; dt_day : Z;
  dt_hour : Z; dt_minute : Z; dt_second : Z; dt_microsecond : Z
}.

(** [datetime.date()] *)
Definition date_of (t : datetime) : date :=
  mkdate (dt_year t) (dt_month t) (dt_day t).

(** [date.__eq__] *)
Definition date_eqb (a b : date) : bool :=
  (year a =? year b) && (month a =? month b) && (day a =? day b).

Definition is_leap (y : Z) : bool :=
  (y mod 4 =? 0) && (negb (y mod 100 =? 0) || (y mod 400 =? 0)).

Definition days_in_month (y m : Z) : Z :=
  match m with
  | 1 | 3 | 5 | 7 | 8 | 10 | 12 => 31
  | 4 | 6 | 9 | 11 => 30
  | 2 => if is_leap y then 29 else 28
  | _ => 0
  end.

(** The values the constructors of [date] and [datetime] accept
    ([MINYEAR = 1], [MAXYEAR = 9999]). *)
Definition valid_date (d : date) : Prop :=
  1 <= year d <= 9999 /\ 1 <= month d <= 12 /\
  1 <= day d <= days_in_month (year d) (month d).

Definition valid_datetime (t : datetime) : Prop :=
  valid_date (date_of t) /\ 0 <= dt_hour t <= 23 /\ 0 <= dt_minute t <= 59 /\
  0 <= dt_second t <= 59 /\ 0 <= dt_microsecond t <= 999999.

(** [date.min] *)
Definition date_min : date := mkdate 1 1 1.

(** Days before January 1st of year [y]. *)
Definition days_before_year (y : Z) : Z :=
  let p := y - 1 in p * 365 + p / 4 - p / 100 + p / 400.

(** Days of year [y] before the first day of month [m]. *)
Definition days_before_month (y m : Z) : Z :=
  match m with
  | 1 => 0
  | 2 => 31
  | 3 => 59
  | 4 => 90
  | 5 => 120
  | 6 => 151
  | 7 => 181
  | 8 => 212
  | 9 => 243
  | 10 => 273
  | 11 => 304
  | 12 => 334
  | _ => 0
  end + (if (2 <? m) && is_leap y then 1 else 0).

(** [date.toordinal()]: January 1st of year 1 is day 1. *)
Definition toordinal (d : date) : Z :=
  days_before_year (year d) + days_before_month (year d) (month d) + day d.

(** [d - timedelta(days=1)]: the day before [d] in the calendar; below
    [date.min] the subtraction raises [OverflowError]. *)
Definition date_sub_one_day (d : date) : result date :=
  if 1 <? day d then Ok (mkdate (year d) (month d) (day d - 1))
  else if 1 <? month d then
    Ok (mkdate (year d) (month d - 1) (days_in_month (year d) (month d - 1)))
  else if 1 <? year d then Ok (mkdate (year d - 1) 12 31)
  else Raise (OverflowError "date value out of range").

(** One decimal digit. *)
Definition digit (n : Z) : ascii :=
  ascii_of_nat (48 + Z.to_nat (n mod 10)).

(** A number in two, and in four, zero-padded decimal digits. *)
Definition pad2 (n : Z) : string :=
  String (digit (n / 10)) (String (digit n) EmptyString).

Definition pad4 (n : Z) : string :=
  String (digit (n / 1000)) (String (digit (n / 100)) (pad2 n)).

(** [t.strftime("%H:%M")] *)
Definition strftime_HM (t : datetime) : string :=
  pad2 (dt_hour t) +:+ ":" +:+ pad2 (dt_minute t).

(** [%Y] is formatted by the C library behind [strftime], and the width of a
    year below 1000 depends on it: glibc prints such a year without padding
    ([999]), other libraries and later versions of the interpreter pad it to
    four digits ([0999]).  From year 1000 on all of them print the four
    digits of the year. *)
Class Strftime := {
  format_Y : Z -> string;
  format_Y_four : forall y, 1000 <= y <= 9999 -> format_Y y = pad4 y
}.

(** [%Y] of glibc: the decimal digits of the year, without padding. *)
Definition glibc_format_Y (y : Z) : string :=
  if y <? 10 then String (digit y) EmptyString
  else if y <? 100 then pad2 y
  else if y <? 1000 then String (digit (y / 100)) (pad2 y)
  else pad4 y.

(** [t.strftime("%Y/%m/%d")] *)
Definition strftime_Ymd `{Strftime} (t : datetime) : string :=
  format_Y (dt_year t) +:+ "/" +:+ pad2 (dt_month t) +:+ "/" +:+
  pad2 (dt_day t).

(** The date in ten characters, the year zero-padded to four digits. *)
Definition padded_Ymd (t : datetime) : string :=
  pad4 (dt_year t) +:+ "/" +:+ pad2 (dt_month t) +:+ "/" +:+ pad2 (dt_day t).

(** [format_datetime_relative(old_time, now)].  [clock] is what
    [datetime.now()] returns; a [datetime] is always truthy, so [now or
    datetime.now()] is [now] whenever it is given. *)
Definition format_datetime_relative `{Strftime} (clock : datetime)
    (old_time : datetime) (now : option datetime) : result string :=
  let now := match now with Some n => n | None => clock end in
  let today := date_of now in
  match date_sub_one_day today with
  | Raise e => Raise e
  | Ok yesterday =>
      let old_date := date_of old_time in
      let time_part := strftime_HM old_time in
      if date_eqb old_date today then Ok time_part
      else if date_eqb old_date yesterday then Ok ("Yesterday " +:+ time_part)
      else
        let date_part := strftime_Ymd old_time in
        Ok (date_part +:+ " " +:+ time_part)
  end.

(** *** [sync_func_wrapper] and [sync_ctx_manager_wrapper] *)

(** What the wrapper can observe of the class of an exception.
    [StopIterationClass] is [StopIteration] itself, [StopAsyncIterationClass]
    is [StopAsyncIteration] with its subclasses, and the next three are
    [TimeoutError] itself (which [concurrent.futures.TimeoutError] is),
    [concurrent.futures.CancelledError] itself and
    [concurrent.futures.InvalidStateError] itself: asyncio replaces an
    instance of these three, raised in the executor's thread, by a copy.
    [ExceptionClass] stands for every other class that derives from
    [Exception], the proper subclasses of [StopIteration] apart, which are
    not among these classes.  [BaseOnly] stands for [KeyboardInterrupt],
    [SystemExit], [GeneratorExit], [asyncio.CancelledError] and the like,
    which do not derive from [Exception]. *)
Inductive exc_class :=
| ExceptionClass
| StopIterationClass
| StopAsyncIterationClass
| TimeoutErrorClass
| FuturesCancelledErrorClass
| FuturesInvalidStateErrorClass
| BaseOnly.

(** An exception object.  [Exc cls ident] is an instance raised by user code,
    known by its identity; [RuntimeError] and [RuntimeErrorFrom] are the
    [RuntimeError]s that the interpreter and [contextlib] create; and
    [FutureCopy cls source] is the object of class [cls] that asyncio builds
    from the arguments of [source] when it copies the state of the
    executor's future. *)
Inductive raised :=
| Exc (cls : exc_class) (ident : nat)
| RuntimeError (msg : string)
| RuntimeErrorFrom (msg : string) (cause : raised)
| FutureCopy (cls : exc_class) (source : raised).

Definition exc_class_eqb (a b : exc_class) : bool :=
  match a, b with
  | ExceptionClass, ExceptionClass
  | StopIterationClass, StopIterationClass
  | StopAsyncIterationClass, StopAsyncIterationClass
  | TimeoutErrorClass, TimeoutErrorClass
  | FuturesCancelledErrorClass, FuturesCancelledErrorClass
  | FuturesInvalidStateErrorClass, FuturesInvalidStateErrorClass
  | BaseOnly, BaseOnly => true
  | _, _ => false
  end.

(** [a is b] *)
Fixpoint raised_is (a b : raised) : bool :=
  match a, b with
  | Exc c i, Exc c' i' => exc_class_eqb c c' && Nat.eqb i i'
  | RuntimeError m, RuntimeError m' => String.eqb m m'
  | RuntimeErrorFrom m c, RuntimeErrorFrom m' c' =>
      String.eqb m m' && raised_is c c'
  | FutureCopy c s, FutureCopy c' s' => exc_class_eqb c c' && raised_is s s'
  | _, _ => false
  end.

(** [type(e)], when it is one of the classes above. *)
Definition class_of (e : raised) : option exc_class :=
  match e with
  | Exc c _ | FutureCopy c _ => Some c
  | RuntimeError _ | RuntimeErrorFrom _ _ => None
  end.

(** [isinstance(e, Exception)] *)
Definition is_Exception (e : raised) : bool :=
  match class_of e with
  | Some BaseOnly => false
  | _ => true
  end.

(** [isinstance(e, RuntimeError)] *)
Definition is_RuntimeError (e : raised) : bool :=
  match e with
  | RuntimeError _ | RuntimeErrorFrom _ _ => true
  | _ => false
  end.

(** [isinstance(e, (StopIteration, StopAsyncIteration))] *)
Definition is_Stop (e : raised) : bool :=
  match class_of e with
  | Some StopIterationClass | Some StopAsyncIterationClass => true
  | _ => false
  end.

(** How a call or an [await] ends: with a value, with an exception, or
    never. *)
Inductive outcome (A : Type) :=
| Returns (a : A)
| Raises (e : raised)
| Hangs.
Arguments Returns {A} a.
Arguments Raises {A} e.
Arguments Hangs {A}.

(** The calls of the two methods of the wrapped manager that a run makes:
    where the call ran ([true]: in the executor's thread) and, for
    [__exit__], its arguments: [None] is [(None, None, None)] and [Some e] is
    [(type(e), e, e.__traceback__)]. *)
Inductive call :=
| EnterCall (in_thread : bool)
| ExitCall (in_thread : bool) (exc_info : option raised).

(** A computation with the calls it made, in order. *)
Definition traced (A : Type) : Type := list call * A.

(** A callable: given its arguments and the place it runs, the calls it
    records and its outcome. *)
Definition callable (A R : Type) : Type := A -> bool -> traced (outcome R).

(** [contextlib.AbstractContextManager]; [__exit__] is read through the truth
    value of what it returns. *)
Record ContextManager (T : Type) := {
  __enter__ : callable unit T;
  __exit__ : callable (option raised) bool
}.
Arguments __enter__ {T} _.
Arguments __exit__ {T} _.

(** An exception leaving the coroutine [_wrapper]: the interpreter replaces
    a [StopIteration] by a [RuntimeError] whose cause it is. *)
Definition coroutine_raises (e : raised) : raised :=
  match class_of e with
  | Some StopIterationClass =>
      RuntimeErrorFrom "coroutine raised StopIteration" e
  | _ => e
  end.


(** What the future of [run_in_executor] holds for an exception raised in
    the executor's thread ([asyncio.futures._convert_future_exc]): the
    exception itself, or, for the three classes of [concurrent.futures], a
    new object of the class of asyncio with the same arguments.
    [asyncio.CancelledError] does not derive from [Exception]. *)
Definition future_copy (e : raised) : raised :=
  match class_of e with
  | Some TimeoutErrorClass => FutureCopy TimeoutErrorClass e
  | Some FuturesCancelledErrorClass => FutureCopy BaseOnly e
  | Some FuturesInvalidStateErrorClass => FutureCopy ExceptionClass e
  | _ => e
  end.

(** [await sync_func_wrapper(func, to_thread=to_thread)(args)]: both variants
    call [func] once, on the loop's thread or through [run_in_executor], and
    the awaited value is the call's.  An exception of the call on the loop's
    thread leaves the coroutine.  An exception in the executor's thread
    reaches the coroutine through the future, and leaves it, but for a
    [StopIteration]: asyncio refuses to set it on the future (CPython 3.11),
    the future is never done and the [await] never completes. *)
Definition awaited {R} (to_thread : bool) (r : outcome R) : outcome R :=
  match r with
  | Raises e =>
      if to_thread then
        match class_of e with
        | Some StopIterationClass => Hangs
        | _ => Raises (coroutine_raises (future_copy e))
        end
      else Raises (coroutine_raises e)
  | _ => r
  end.

Definition sync_func_wrapper {A R} (func : callable A R) (to_thread : bool)
    (args : A) : traced (outcome R) :=
  let '(calls, r) := func args to_thread in (calls, awaited to_thread r).

(** One resumption of an async generator: it yields, returns
    ([StopAsyncIteration] for the caller), raises, or stays blocked on an
    [await] that never completes. *)
Inductive gen_step (T : Type) :=
| Yield (v : T)
| Stop
| Throw (e : raised)
| Blocked.
Arguments Yield {T} v.
Arguments Stop {T}.
Arguments Throw {T} e.
Arguments Blocked {T}.

(** An exception leaving the body of an async generator: a
    [StopIteration] or [StopAsyncIteration] is replaced by a [RuntimeError]
    whose cause it is. *)
Definition leave_generator (e : raised) : raised :=
  match class_of e with
  | Some StopIterationClass =>
      RuntimeErrorFrom "async generator raised StopIteration" e
  | Some StopAsyncIterationClass =>
      RuntimeErrorFrom "async generator raised StopAsyncIteration" e
  | _ => e
  end.

Section SyncCtxManagerWrapper.
Context {T : Type} (cm : ContextManager T) (to_thread : bool).

(** An exception [e] raised inside the [try]: the [except Exception] clause
    calls [__exit__] with the exception and re-raises it unless the result is
    truthy; any other [BaseException] passes through untouched. *)
Definition wrapper_except (e : raised) : traced (gen_step T) :=
  if is_Exception e then
    let '(calls, r) := sync_func_wrapper (__exit__ cm) to_thread (Some e) in
    (calls,
     match r with
     | Returns b => if b then Stop else Throw (leave_generator e)
     | Raises e' => Throw (leave_generator e')
     | Hangs => Blocked
     end)
  else ([], Throw (leave_generator e)).

(** The generator up to its [yield]: the [try] evaluates [__enter__]. *)
Definition wrapper_start : traced (gen_step T) :=
  let '(calls, r) := sync_func_wrapper (__enter__ cm) to_thread tt in
  match r with
  | Returns v => (calls, Yield v)
  | Raises e => let '(calls', s) := wrapper_except e in (calls ++ calls', s)
  | Hangs => (calls, Blocked)
  end.

(** Resumed normally at the [yield]: the [try] ends and the [else] clause
    calls [__exit__(None, None, None)], whose result is dropped. *)
Definition wrapper_resume : traced (gen_step T) :=
  let '(calls, r) := sync_func_wrapper (__exit__ cm) to_thread None in
  (calls,
   match r with
   | Returns _ => Stop
   | Raises e => Throw (leave_generator e)
   | Hangs => Blocked
   end).

(** Resumed by [athrow(e)]: the [yield] raises [e] inside the [try]. *)
Definition wrapper_throw (e : raised) : traced (gen_step T) :=
  wrapper_except e.

End SyncCtxManagerWrapper.

(** The object that [@asynccontextmanager] builds around a generator. *)
Record AsyncContextManager (T : Type) := {
  __aenter__ : traced (outcome T);
  __aexit__ : option raised -> traced (outcome bool)
}.
Arguments __aenter__ {T} _.
Arguments __aexit__ {T} _.

(** [contextlib._AsyncGeneratorContextManager], over a generator given by its
    three resumptions. *)
Definition asynccontextmanager {T} (start resume : traced (gen_step T))
    (throw : raised -> traced (gen_step T)) : AsyncContextManager T :=
  {| __aenter__ :=
       let '(calls, s) := start in
       (calls,
        match s with
        | Yield v => Returns v
        | Stop => Raises (RuntimeError "generator didn't yield")
        | Throw e => Raises e
        | Blocked => Hangs
        end);
     __aexit__ := fun exc_info =>
       match exc_info with
       | None =>
           let '(calls, s) := resume in
           (calls,
            match s with
            | Stop => Returns false
            | Yield _ => Raises (RuntimeError "generator didn't stop")
            | Throw e => Raises e
            | Blocked => Hangs
            end)
       | Some value =>
           let '(calls, s) := throw value in
           (calls,
            match s with
            | Stop => Returns true
            | Throw exc =>
                if is_RuntimeError exc then
                  if raised_is exc value then Returns false
                  else if is_Stop value &&
                          match exc with
                          | RuntimeErrorFrom _ cause => raised_is cause value
                          | _ => false
                          end
                  then Returns false
                  else Raises exc
                else if raised_is exc value then Returns false
                else Raises exc
            | Yield _ =>
                Raises (RuntimeError "generator didn't stop after athrow()")
            | Blocked => Hangs
            end)
       end |}.

(** [sync_ctx_manager_wrapper(cm, to_thread=to_thread)] *)
Definition sync_ctx_manager_wrapper {T} (cm : ContextManager T)
    (to_thread : bool) : AsyncContextManager T :=
  asynccontextmanager (wrapper_start cm to_thread)
    (wrapper_resume cm to_thread) (wrapper_throw cm to_thread).

(** [async with mgr as v: body(v)].  The result is [Returns (Some r)] when
    the body returned [r], [Returns None] when it raised and the manager
    suppressed the exception, [Raises e] when [e] propagates, and [Hangs]
    when the statement never completes. *)
Definition async_with {T R} (mgr : AsyncContextManager T)
    (body : T -> outcome R) : traced (outcome (option R)) :=
  let '(calls, entered) := __aenter__ mgr in
  match entered with
  | Raises e => (calls, Raises e)
  | Hangs => (calls, Hangs)
  | Returns v =>
      match body v with
      | Returns r =>
          let '(calls', x) := __aexit__ mgr None in
          (calls ++ calls',
           match x with
           | Returns _ => Returns (Some r)
           | Raises e => Raises e
           | Hangs => Hangs
           end)
      | Raises e =>
          let '(calls', x) := __aexit__ mgr (Some e) in
          (calls ++ calls',
           match x with
           | Returns b => if b then Returns None else Raises e
           | Raises e' => Raises e'
           | Hangs => Hangs
           end)
      | Hangs => (calls, Hangs)
      end
  end.

(** A context manager that only records its calls: [__enter__] has the
    outcome [entered] and [__exit__] the outcome [exited exc_info]. *)
Definition recording_cm {T} (entered : outcome T)
    (exited : option raised -> outcome bool) : ContextManager T :=
  {| __enter__ := fun _ th => ([EnterCall th], entered);
     __exit__ := fun exc_info th => ([ExitCall th exc_info], exited exc_info) |}.

(** The arguments of the calls of [__exit__] in a trace. *)
Definition exit_calls (calls : list call) : list (option raised) :=
  omap (fun c => match c with
                 | ExitCall _ a => Some a
                 | EnterCall _ => None
                 end) calls.

(** *** [flatten_exception_group] *)

(** An exception as the function tells them apart: a [BaseExceptionGroup]
    with its [exceptions], or any other exception. *)
#[warnings="-register-all"]
Inductive exc_tree :=
| Single (e : raised)
| BaseExceptionGroup (message : string) (exceptions : list exc_tree).

(** [isinstance(exc, BaseExceptionGroup)] *)
Definition is_group (exc : exc_tree) : bool :=
  match exc with
  | Single _ => false
  | BaseExceptionGroup _ _ => true
  end.

(** What one round of the [for] loop yields for the element [exc]: the
    exception itself, or everything the recursive call yields for a group. *)
Fixpoint yield_for (exc : exc_tree) : list exc_tree :=
  match exc with
  | Single _ => [exc]
  | BaseExceptionGroup _ exceptions => flat_map yield_for exceptions
  end.

(** [list(flatten_exception_group(exc_group))].  Reading [.exceptions] off
    an exception that is no group raises [AttributeError]. *)
Definition flatten_exception_group (exc_group : exc_tree)
    : result (list exc_tree) :=
  match exc_group with
  | BaseExceptionGroup _ exceptions => Ok (flat_map yield_for exceptions)
  | Single _ => Raise (AttributeError "exceptions")
  end.

(** The groups that Python lets one build: the list of exceptions of a group
    is never empty, at any depth. *)
Fixpoint constructible (exc : exc_tree) : bool :=
  match exc with
  | Single _ => true
  | BaseExceptionGroup _ exceptions =>
      match exceptions with
      | [] => false
      | _ :: _ => forallb constructible exceptions
      end
  end.

(** *** [remove_not_given_params] *)

(** The value of a keyword argument: the [NotGiven] sentinel, or anything
    else. *)
Inductive kwarg (A : Type) :=
| NotGivenValue
| GivenValue (a : A).
Arguments NotGivenValue {A}.
Arguments GivenValue {A} a.

(** [isinstance(value, NotGiven)] *)
Definition is_NotGiven {A} (value : kwarg A) : bool :=
  match value with
  | NotGivenValue => true
  | GivenValue _ => false
  end.

(** [remove_not_given_params], on its keyword arguments as the dictionary
    [kwargs].  A [dict] is a finite map: two
    dictionaries with the same items are equal, whatever their order. *)
Definition remove_not_given_params {A} (kwargs : gmap string (kwarg A))
    : gmap string (kwarg A) :=
  filter (fun item => is_NotGiven item.2 = false) kwargs.

End Utils.

(** ** quickstart.py *)

Module Quickstart.
Import Utils.

(** The identity of an object ([id(obj)] in Python): constructors draw a
    fresh one, and two references denote the same instance exactly when they
    carry the same identity. *)
Definition oid := nat.

(** Construction threads the next free identity and may raise. *)
Definition M (A : Type) : Type := oid -> result (A * oid).

#[global] Instance M_ret : MRet M := fun A a n => Ok (a, n).
#[global] Instance M_bind : MBind M := fun A B f m n =>
  match m n with
  | Ok (a, n') => f a n'
  | Raise e => Raise e
  end.

Definition new_id : M oid := fun n => Ok (n, S n).

(** Calling one of the factories of [utils.py]. *)
Definition call {A} (r : result A) : M A := fun n =>
  match r with
  | Ok a => Ok (a, n)
  | Raise e => Raise e
  end.

(** [str(DEF_FOLDER_PATH)] for [DEF_FOLDER_PATH = Path("./.cache/")]; a
    [folder_path] argument is carried as the text it formats to. *)
Definition DEF_FOLDER_PATH : string := ".cache".

Record OpenAIEmbeddings := {
  embeddings_id : oid;
  embeddings_provider : option string;
  embeddings_model : option string
}.

Record HistoryStore := {
  history_store_id : oid;
  db_url : string
}.

Record TagsVectorStore := {
  vector_store_id : oid;
  folder_path : string;
  index_name : string;
  embeddings : OpenAIEmbeddings;
  allow_dangerous_deserialization : bool;
  auto_save : bool
}.

Record EndDetector := { end_detector_id : oid }.
Record TimeSplitter := { time_splitter_id : oid }.

(** An element of the list given to
    [RichSystemMessagePromptTemplate.from_template]. *)
Inductive template_part :=
| Text (s : string)
| MessageSegmentsPlaceholder (variable_name : string).

(** An element of [contexts]. *)
Inductive context_template :=
| RichSystemMessagePromptTemplate (template : list template_part)
| MessagesPlaceholder (variable_name : string) (optional : bool).

(** A [langchain_core.tools.BaseTool], known by its name. *)
Inductive BaseTool := Tool (name : string).

(** The runnables that [quickstart.py] builds.  The first field of each
    constructor is the identity of the object; the others are the arguments
    of the constructor call, under their keyword. *)
Inductive Runnable :=
| StringSingleTurnChat (id : oid) (lang : string)
    (provider model : option string) (contexts : list context_template)
| AgentBase (id : oid) (lang : string)
    (provider model : option string) (contexts : list context_template)
    (tools : list BaseTool)
| RunnableWithMemoryMaker (id : oid) (bound : Runnable)
    (history_store : HistoryStore) (vector_store : TagsVectorStore)
    (input_messages_key history_messages_key : string)
    (short_memory_key long_memory_key : string)
| RunnableWithEndDetector (id : oid) (bound : Runnable)
    (end_detector : EndDetector) (default : gmap string pyvalue)
    (history_messages_key : string)
| RunnableWithHistoryStore (id : oid) (bound : Runnable)
    (history_store : HistoryStore) (time_splitter : TimeSplitter)
    (input_messages_key history_messages_key : string).

(** The line feed that ends [prompt_list]. *)
Definition newline : string := String (ascii_of_nat 10) EmptyString.

Section Constructors.
Context `{StrMethods}.
(** [MultilingualStringPromptValue().to_messages(lang=lang)]: the texts of
    the default prompt of a language, defined outside [quickstart.py]. *)
Variable to_messages : string -> list string.
(** [os.environ] *)
Variable environ : gmap string string.

(** [os.getenv(key, default)] *)
Definition getenv (key default : string) : string :=
  match environ !! key with
  | Some v => v
  | None => default
  end.

Definition create_embeddings (provider model : option string)
    : M OpenAIEmbeddings :=
  p ← call (get_provider_from_env "EMBEDDINGS_MODEL"
              (DefaultStr (str_or provider "openai")) None environ);
  m ← call (get_model_from_env "EMBEDDINGS_MODEL"
              (DefaultStr (str_or model "text-embedding-ada-002")) None environ);
  i ← new_id;
  mret {| embeddings_id := i; embeddings_provider := p; embeddings_model := m |}.

Definition create_history_store (index_name folder_path : string)
    : M HistoryStore :=
  i ← new_id;
  mret {| history_store_id := i;
          db_url := "sqlite:///" +:+ folder_path +:+ "/" +:+ index_name
                    +:+ ".sqlite" |}.

Definition create_vector_store (embeddings : OpenAIEmbeddings)
    (index_name folder_path : string) : M TagsVectorStore :=
  i ← new_id;
  mret {| vector_store_id := i;
          folder_path := folder_path;
          index_name := index_name;
          embeddings := embeddings;
          allow_dangerous_deserialization := true;
          auto_save := true |}.

(** [lang or os.getenv("LANGUAGE", "zh")] *)
Definition resolve_lang (lang : option string) : string :=
  match lang with
  | Some l => if str_truthy l then l else getenv "LANGUAGE" "zh"
  | None => getenv "LANGUAGE" "zh"
  end.

(** [[*([prompt] if prompt else ...to_messages(lang=lang)), "\n"]] *)
Definition prompt_list (lang : string) (prompt : option string)
    : list template_part :=
  map Text (match prompt with
            | Some p => if str_truthy p then [p] else to_messages lang
            | None => to_messages lang
            end ++ [newline]).

(** The [contexts] argument of both agents. *)
Definition agent_contexts (lang : string) (prompt : option string)
    : list context_template :=
  [ RichSystemMessagePromptTemplate
      (prompt_list lang prompt ++ [MessageSegmentsPlaceholder "long_memory"]);
    MessagesPlaceholder "history" true ].

Definition create_chat (lang prompt provider model : option string)
    : M Runnable :=
  let lang := resolve_lang lang in
  p ← call (get_provider_from_env "CHAT_MODEL"
              (DefaultStr (str_or provider "openai")) None environ);
  m ← call (get_model_from_env "CHAT_MODEL"
              (DefaultStr (str_or model "gpt-4.1")) None environ);
  i ← new_id;
  mret (StringSingleTurnChat i lang p m (agent_contexts lang prompt)).

Definition create_agent (lang prompt : option string)
    (tools : option (list BaseTool)) (provider model : option string)
    : M Runnable :=
  let lang := resolve_lang lang in
  p ← call (get_provider_from_env "AGENT_MODEL"
              (DefaultStr (str_or provider "openai")) None environ);
  m ← call (get_model_from_env "AGENT_MODEL"
              (DefaultStr (str_or model "gpt-4.1")) None environ);
  i ← new_id;
  mret (AgentBase i lang p m (agent_contexts lang prompt)
          (match tools with Some (t :: ts) => t :: ts | _ => [] end)).

(** [build_pipeline(lang, prompt, index_name=..., folder_path=...)] *)
Definition build_pipeline (lang prompt : option string)
    (index_name folder_path : string) : M Runnable :=
  embeddings ← create_embeddings None None;
  history_store ← create_history_store index_name folder_path;
  vector_store ← create_vector_store embeddings index_name folder_path;
  agent ← create_chat lang prompt None None;
  i1 ← new_id;
  let pipeline :=
    RunnableWithMemoryMaker i1 agent history_store vector_store
      "input" "history" "short_memory" "long_memory" in
  d ← new_id;
  i2 ← new_id;
  let pipeline :=
    RunnableWithEndDetector i2 pipeline {| end_detector_id := d |}
      {[ "output" := PyList [] ]} "history" in
  t ← new_id;
  i3 ← new_id;
  mret (RunnableWithHistoryStore i3 pipeline history_store
          {| time_splitter_id := t |} "input" "history").

End Constructors.

(** *** Attributes of the runnables *)

(** [r.bound], for the wrappers. *)
Definition bound_of (r : Runnable) : option Runnable :=
  match r with
  | RunnableWithMemoryMaker _ b _ _ _ _ _ _
  | RunnableWithEndDetector _ b _ _ _
  | RunnableWithHistoryStore _ b _ _ _ _ => Some b
  | _ => None
  end.

(** [r.history_store] *)
Definition history_store_of (r : Runnable) : option HistoryStore :=
  match r with
  | RunnableWithMemoryMaker _ _ h _ _ _ _ _
  | RunnableWithHistoryStore _ _ h _ _ _ => Some h
  | _ => None
  end.

(** [r.vector_store] *)
Definition vector_store_of (r : Runnable) : option TagsVectorStore :=
  match r with
  | RunnableWithMemoryMaker _ _ _ v _ _ _ _ => Some v
  | _ => None
  end.

(** [r.default] *)
Definition default_of (r : Runnable) : option (gmap string pyvalue) :=
  match r with
  | RunnableWithEndDetector _ _ _ d _ => Some d
  | _ => None
  end.

(** [r.contexts] *)
Definition contexts_of (r : Runnable) : option (list context_template) :=
  match r with
  | StringSingleTurnChat _ _ _ _ c | AgentBase _ _ _ _ c _ => Some c
  | _ => None
  end.

(** [(r.lang, r.provider, r.model)] of an agent. *)
Definition agent_settings (r : Runnable)
    : option (string * option string * option string) :=
  match r with
  | StringSingleTurnChat _ l p m _ | AgentBase _ l p m _ _ => Some (l, p, m)
  | _ => None
  end.

(** [r.tools] *)
Definition tools_of (r : Runnable) : option (list BaseTool) :=
  match r with
  | AgentBase _ _ _ _ _ t => Some t
  | _ => None
  end.

(** The configured context keys of a memory maker, in the order of its
    keyword arguments. *)
Definition memory_keys (r : Runnable) : list string :=
  match r with
  | RunnableWithMemoryMaker _ _ _ _ i h s l => [i; h; s; l]
  | _ => []
  end.

(** The variables that a list of context templates consumes, each with
    whether it may be left out. *)
Definition placeholders (cs : list context_template) : list (string * bool) :=
  flat_map (fun c =>
    match c with
    | RichSystemMessagePromptTemplate parts =>
        flat_map (fun p => match p with
                           | MessageSegmentsPlaceholder v => [(v, false)]
                           | Text _ => []
                           end) parts
    | MessagesPlaceholder v o => [(v, o)]
    end) cs.



End Quickstart.


(** ** The collaborators of the pipeline

    The classes behind [HistoryStore], [TagsVectorStore] and
    [RunnableWithEndDetector] are imported by [quickstart.py] and defined in
    other packages of the repository. *)

Module Contract.
Import Quickstart.

Section HistoryStoreContract.
Context {Turn : Type}.

(** Modelled from the spec: the state of [BaseHistoryStore]
    ([cogniweave.core.history_stores], not among the sources), as section 4.1
    describes it: a durable, session-keyed append log of turns, behind a
    medium that may be unreachable. *)
Record history_state := {
  reachable : bool;
  turns : gmap string (list Turn)
}.

(** Modelled from the spec: a store that was created and never written. *)
Definition empty_store : history_state :=
  {| reachable := true; turns := ∅ |}.

(** Modelled from the spec: [append(session, turn)] of section 4.1, missing
    from the sources: it appends the turn, or fails with [StorageError] and
    leaves no partial record. *)
Definition append (σ : history_state) (session : string) (turn : Turn)
    : result history_state :=
  if reachable σ then
    Ok {| reachable := true;
          turns := <[session := default [] (turns σ !! session) ++ [turn]]>
                     (turns σ) |}
  else Raise StorageError.

(** Modelled from the spec: [get_history(session, limit?)] of section 4.1,
    missing from the sources: the most recent [limit] turns (all of them by
    default) in chronological order; [NotFoundError] only when the store is
    unreachable, and the empty sequence for a session without turns. *)
Definition get_history (σ : history_state) (session : string)
    (limit : option nat) : result (list Turn) :=
  if reachable σ then
    let all := default [] (turns σ !! session) in
    Ok (match limit with
        | None => all
        | Some n => drop (length all - n)%nat all
        end)
  else Raise NotFoundError.

(** Modelled from the spec: persisting a sequence of turns, one [append]
    each, in order. *)
Fixpoint append_all (σ : history_state) (session : string)
    (ts : list Turn) : result history_state :=
  match ts with
  | [] => Ok σ
  | t :: rest => σ' ← append σ session t; append_all σ' session rest
  end.

(** Modelled from the spec: the stores of a process, one state per
    [HistoryStore] instance.  An instance without an entry was never
    written. *)
Definition state_of (μ : gmap oid history_state) (h : HistoryStore)
    : history_state :=
  default empty_store (μ !! history_store_id h).

(** Modelled from the spec: a turn is stored in a session of an instance
    when the instance is reachable and holds the turn for that session. *)
Definition stored (μ : gmap oid history_state) (h : HistoryStore)
    (session : string) (turn : Turn) : Prop :=
  reachable (state_of μ h) = true /\
  turn ∈ default [] (turns (state_of μ h) !! session).

(** Modelled from the spec: [h.append(session, turn)] on an instance. *)
Definition append_to (μ : gmap oid history_state) (h : HistoryStore)
    (session : string) (turn : Turn) : result (gmap oid history_state) :=
  σ' ← append (state_of μ h) session turn;
  mret (<[history_store_id h := σ']> μ).

(** Modelled from the spec: [h.get_session_history(session, limit=...)] on
    an instance. *)
Definition get_session_history (μ : gmap oid history_state)
    (h : HistoryStore) (session : string) (limit : option nat)
    : result (list Turn) :=
  get_history (state_of μ h) session limit.

(** Modelled from the spec: later writes, each through some instance. *)
Fixpoint append_many (μ : gmap oid history_state)
    (ws : list (HistoryStore * string * Turn))
    : result (gmap oid history_state) :=
  match ws with
  | [] => Ok μ
  | (h, s, t) :: rest => μ' ← append_to μ h s t; append_many μ' rest
  end.

End HistoryStoreContract.
Arguments history_state Turn : clear implicits.

Section TagsVectorStoreContract.
Context {Tag : Type}.

(** Modelled from the spec: the state of [TagsVectorStore]
    ([cogniweave.core.vector_stores], not among the sources), as section 4.3
    describes it: the tags of the index, and those of them that have reached
    the backing medium. *)
Record vector_state := {
  index_tags : list Tag;
  persisted_tags : list Tag
}.

(** Modelled from the spec: [add(tag_text, embedding, scope)] of section
    4.3, missing from the sources: it inserts the tag and, when [auto_save]
    is enabled, persists before returning; otherwise the insert waits for
    [flush()].  The [TagId] is the position of the tag. *)
Definition add (store : TagsVectorStore) (vs : vector_state) (tag : Tag)
    : nat * vector_state :=
  let inserted := index_tags vs ++ [tag] in
  (length (index_tags vs),
   {| index_tags := inserted;
      persisted_tags :=
        if auto_save store then inserted else persisted_tags vs |}).

(** Modelled from the spec: [flush()] of section 4.3. *)
Definition flush (vs : vector_state) : vector_state :=
  {| index_tags := index_tags vs; persisted_tags := index_tags vs |}.

(** Modelled from the spec: a sequence of inserts through one store. *)
Definition add_all (store : TagsVectorStore) (vs : vector_state)
    (tags : list Tag) : vector_state :=
  foldl (fun vs tag => snd (add store vs tag)) vs tags.

End TagsVectorStoreContract.
Arguments vector_state Tag : clear implicits.

(** Modelled from the spec: the verdict of the end detector (section 4.4):
    complete, with the logically joined input, or incomplete. *)
Inductive verdict :=
| COMPLETE (joined : string)
| INCOMPLETE.

Section EndGateContract.
(** Modelled from the spec: the completion heuristic [classify] of section
    4.4, an external classifier over the buffered fragments. *)
Variable classify : list string -> verdict.
(** Modelled from the spec: the wrapped pipeline, a function of the input it
    is given. *)
Variable wrapped : string -> gmap string pyvalue.

(** Modelled from the spec: the state of the end gate (section 3,
    PendingBuffer): the fragments buffered per session, and the inputs that
    were forwarded to the wrapped pipeline, in order. *)
Record gate_state := {
  buffers : gmap string (list string);
  forwarded : list string
}.

(** Modelled from the spec: one invocation of [RunnableWithEndDetector]
    ([cogniweave.runnables.end_detector], not among the sources), as section
    4.6 describes it: on [INCOMPLETE] the configured default is returned, the
    wrapped pipeline is not called and the fragment stays buffered; on
    [COMPLETE] the joined input is forwarded and the buffer is cleared. *)
Definition end_gate_invoke (default_result : gmap string pyvalue)
    (session fragment : string) (st : gate_state)
    : gmap string pyvalue * gate_state :=
  let pending := default [] (buffers st !! session) ++ [fragment] in
  match classify pending with
  | INCOMPLETE =>
      (default_result,
       {| buffers := <[session := pending]> (buffers st);
          forwarded := forwarded st |})
  | COMPLETE joined =>
      (wrapped joined,
       {| buffers := delete session (buffers st);
          forwarded := forwarded st ++ [joined] |})
  end.

(** Modelled from the spec: invoking a runnable as an end gate: its
    [default] attribute is the configured default result. *)
Definition invoke_gate (r : Runnable) (session fragment : string)
    (st : gate_state) : option (gmap string pyvalue * gate_state) :=
  d ← default_of r; Some (end_gate_invoke d session fragment st).

End EndGateContract.

(** *** One invocation of the pipeline *)

Section InvokeContract.

(** Modelled from the spec: the verdict of the end detector on the
    fragments pending for a session (section 4.4). *)
Variable classify : list string -> verdict.
(** Modelled from the spec: the answer of the agent to the input that
    reaches it. *)
Variable agent_call : string -> gmap string pyvalue.


End InvokeContract.

End Contract.

(** ** cli/__init__.py *)

Module Cli.
Import Quickstart.

(** A message of the history, by the two classes the demo tests for. *)
Inductive message :=
| HumanMessage (content : string)
| AIMessage (content : string)
| OtherMessage (content : string).

(** What [input()] meets on standard input: a line, or an interrupt of the
    user.  The end of the list is the end of the input ([EOFError]). *)
Inductive stdin_event :=
| Line (s : string)
| KeyboardInterrupt.

(** What the demo does to the terminal and to the pipeline, in order. *)
Inductive console_event :=
| PrintPrompt
| StdoutWrite (s : string)
| PrintLine (message : string)
| PrintBubble (message : string)
| StatusSleep (seconds : Z)
| StreamCall (input session_id : string)
| LiveUpdate (text : string).

(** A fragment that [pipeline.stream] yields. *)
Inductive chunk :=
| ChunkStr (s : string)
| ChunkDict (d : gmap string pyvalue).

(** The escape sequence ["\033[K"]. *)
Definition erase_line : string := String (ascii_of_nat 27) "[K".

(** A double quote. *)
Definition dquote : string := String (ascii_of_nat 34) EmptyString.

Section Demo.
Context `{StrMethods}.
(** The state of everything the pipeline and its stores keep. *)
Variable World : Type.
(** [pipeline.stream({"input": input_msg}, config={"configurable":
    {"session_id": session_id}})], defined outside these files: the chunks
    it yields, the exception that ends the iteration if one does, and the
    state it leaves. *)
Variable stream :
  World -> Runnable -> string -> string ->
  list chunk * option exception * World.
(** [history_store.get_session_history(session_id, limit=...)], defined
    outside these files. *)
Variable get_session_history :
  World -> HistoryStore -> string -> option nat -> result (list message).

(** [_get_input()], given what [input()] meets: [None] is the end of the
    input. *)
Definition _get_input (next : option stdin_event)
    : list console_event * option string :=
  match next with
  | None | Some KeyboardInterrupt => ([PrintPrompt; StdoutWrite erase_line], None)
  | Some (Line input_msg) =>
      if String.eqb (lower (strip input_msg)) "exit" then ([PrintPrompt], None)
      else ([PrintPrompt], Some input_msg)
  end.

Definition _print_input (message : string) : list console_event :=
  [PrintPrompt; PrintLine message].

Definition _print_output (message : string) : list console_event :=
  [PrintBubble message].

(** The replay of the stored history when the demo starts. *)
Definition replay (nearly_history : list message) : list console_event :=
  flat_map (fun hist =>
    match hist with
    | HumanMessage c => _print_input c
    | AIMessage c => _print_output c
    | OtherMessage _ => []
    end) nearly_history.

(** [chunk if isinstance(chunk, str) else chunk.get("output", "")] *)
Definition chunk_text (c : chunk) : pyvalue :=
  match c with
  | ChunkStr s => PyStr s
  | ChunkDict d => default (PyStr "") (d !! "output")
  end.

(** A chunk whose text the loop can append to [text_buffer]: a [str], or a
    falsy value, which the loop skips. *)
Definition textual (c : chunk) : Prop :=
  match chunk_text c with
  | PyStr _ => True
  | v => py_truthy v = false
  end.

(** The [for chunk in chunks] loop under [Live]: the updates it shows and
    the final [text_buffer].  [text_buffer += text] raises [TypeError] when
    [text] is truthy and not a [str]. *)
Fixpoint consume (chunks : list chunk) (failure : option exception)
    (text_buffer : string) : list console_event * result string :=
  match chunks with
  | [] =>
      match failure with
      | Some e => ([], Raise e)
      | None => ([], Ok text_buffer)
      end
  | c :: rest =>
      let text := chunk_text c in
      if py_truthy text then
        match text with
        | PyStr t =>
            let text_buffer := text_buffer +:+ t in
            let '(evs, r) := consume rest failure text_buffer in
            (LiveUpdate text_buffer :: evs, r)
        | _ =>
            ([], Raise (TypeError ("can only concatenate str (not " +:+ dquote
                                   +:+ "list" +:+ dquote +:+ ") to str")))
        end
      else consume rest failure text_buffer
  end.

(** The [while True] loop of [demo].  [Ok rest] is the loop left through
    [break], with [rest] still unread on standard input. *)
Fixpoint demo_loop (pipeline : Runnable) (session_id : string) (w : World)
    (stdin : list stdin_event)
    : list console_event * result (list stdin_event) :=
  match stdin with
  | [] => (fst (_get_input None), Ok [])
  | ev :: rest =>
      let '(evs, input_msg) := _get_input (Some ev) in
      match input_msg with
      | None => (evs, Ok rest)
      | Some m =>
          if str_truthy m then
            let '(chunks, failure, w') := stream w pipeline m session_id in
            let '(shown, r) := consume chunks failure "" in
            let evs := evs ++ [StatusSleep 3; StreamCall m session_id] ++ shown in
            match r with
            | Raise e => (evs, Raise e)
            | Ok text_buffer =>
                let '(later, r') := demo_loop pipeline session_id w' rest in
                (evs ++ (if str_truthy text_buffer
                         then _print_output text_buffer else []) ++ later, r')
            end
          else (evs, Ok rest)
      end
  end.

(** [demo(session_id, index=index, folder=folder)], the objects before it
    having used the identities below [next]. *)
Definition demo (to_messages : string -> list string)
    (environ : gmap string string) (session_id index folder : string)
    (w : World) (stdin : list stdin_event) (next : oid)
    : list console_event * result (list stdin_event) :=
  match build_pipeline to_messages environ None None index folder next with
  | Raise e => ([], Raise e)
  | Ok (pipeline, _) =>
      match history_store_of pipeline with
      | None => ([], Raise (AttributeError "history_store"))
      | Some history_store =>
          match get_session_history w history_store session_id (Some 10%nat) with
          | Raise e => ([], Raise e)
          | Ok nearly_history =>
              let '(evs, r) := demo_loop pipeline session_id w stdin in
              (replay nearly_history ++ evs, r)
          end
      end
  end.

(** Whether the loop goes on after reading [ev]: a line that is not empty
    and is not ["exit"] once stripped and lowercased. *)
Definition continues (ev : stdin_event) : bool :=
  match ev with
  | KeyboardInterrupt => false
  | Line s => str_truthy s && negb (String.eqb (lower (strip s)) "exit")
  end.

(** The longest prefix of the input on which the loop goes on. *)
Fixpoint read_lines (stdin : list stdin_event) : list string :=
  match stdin with
  | Line s :: rest => if continues (Line s) then s :: read_lines rest else []
  | _ => []
  end.

(** The inputs given to [pipeline.stream], in order. *)
Definition stream_calls (evs : list console_event) : list string :=
  omap (fun ev => match ev with
                  | StreamCall input _ => Some input
                  | _ => None
                  end) evs.

(** The number of prompts shown. *)
Definition prompts (evs : list console_event) : nat :=
  length (omap (fun ev => match ev with
                          | PrintPrompt => Some tt
                          | _ => None
                          end) evs).

(** The text of a chunk when it is a [str], and the empty text otherwise. *)
Definition chunk_str (c : chunk) : string :=
  match chunk_text c with
  | PyStr t => t
  | _ => ""
  end.

(** The texts of the chunks, joined in order. *)
Definition joined (chunks : list chunk) : string :=
  foldr (fun c acc => chunk_str c +:+ acc) "" chunks.

(** What the display is to show for chunks whose texts are [str]s, from a
    given [text_buffer]: one update for each chunk with a text that is not
    empty, in order, with the buffer followed by the texts of the chunks up
    to and including that one. *)
Definition updates (text_buffer : string) (chunks : list chunk)
    : list console_event :=
  flat_map (fun k =>
    match chunks !! k with
    | Some c =>
        if str_truthy (chunk_str c)
        then [LiveUpdate (text_buffer +:+ joined (take (S k) chunks))]
        else []
    | None => []
    end) (seq 0 (length chunks)).

(** The number of chunks with a truthy text. *)
Definition truthy_chunks (chunks : list chunk) : nat :=
  length (omap (fun c => if py_truthy (chunk_text c) then Some c else None)
            chunks).

(** What [pipeline.stream] gave ends without an exception and holds only
    chunks that the loop can append. *)
Definition well_behaved (out : list chunk * option exception * World) : Prop :=
  out.1.2 = None /\ Forall textual out.1.1.

End Demo.

End Cli.

(** ** An instance of the string methods

    ASCII letters are lowercased and ASCII white space is stripped; other
    characters are left alone. *)

Definition ascii_lower (c : ascii) : ascii :=
  let n := nat_of_ascii c in
  if (65 <=? n)%nat && (n <=? 90)%nat then ascii_of_nat (n + 32) else c.

Fixpoint string_map (f : ascii -> ascii) (s : string) : string :=
  match s with
  | EmptyString => EmptyString
  | String c r => String (f c) (string_map f r)
  end.

Definition ascii_space (c : ascii) : bool :=
  let n := nat_of_ascii c in
  ((9 <=? n)%nat && (n <=? 13)%nat) || ((28 <=? n)%nat && (n <=? 32)%nat).

Fixpoint lstrip (s : string) : string :=
  match s with
  | EmptyString => EmptyString
  | String c r => if ascii_space c then lstrip r else s
  end.

Fixpoint rstrip (s : string) : string :=
  match s with
  | EmptyString => EmptyString
  | String c r =>
      match rstrip r with
      | EmptyString => if ascii_space c then EmptyString else String c EmptyString
      | r' => String c r'
      end
  end.

#[global] Instance ascii_str : StrMethods :=
  {| lower := string_map ascii_lower; strip := fun s => rstrip (lstrip s) |}.

(** ** Two instances of [%Y]

    glibc, which leaves a year below 1000 unpadded, and a library that pads
    every year to four digits. *)

Lemma glibc_format_Y_four (y : Z) :
  1000 <= y <= 9999 -> Utils.glibc_format_Y y = Utils.pad4 y.
Proof.
  intros Hy. unfold Utils.glibc_format_Y.
  destruct (Z.ltb_spec y 10); [lia|].
  destruct (Z.ltb_spec y 100); [lia|].
  destruct (Z.ltb_spec y 1000); [lia|]. reflexivity.
Qed.

#[global] Instance glibc_strftime : Utils.Strftime :=
  {| Utils.format_Y := Utils.glibc_format_Y;
     Utils.format_Y_four := glibc_format_Y_four |}.

Definition padded_strftime : Utils.Strftime :=
  {| Utils.format_Y := Utils.pad4;
     Utils.format_Y_four := fun _ _ => eq_refl |}.


(** ** Collaborators for the examples *)

(** A detector that waits for a second fragment and joins the two. *)
Definition two_fragments (pending : list string) : Contract.verdict :=
  match pending with
  | [a; b] => Contract.COMPLETE (a +:+ b)
  | _ => Contract.INCOMPLETE
  end.

(** A wrapped pipeline that answers with its input. *)
Definition echo_output (input : string) : gmap string pyvalue :=
  {[ "output" := PyStr input ]}.

(** A pipeline that answers in three chunks: a text, the input under
    ["output"], and the default of the end gate. *)
Definition three_chunks (w : unit) (_ : Quickstart.Runnable) (m _ : string)
    : list Cli.chunk * option exception * unit :=
  ([Cli.ChunkStr "> "; Cli.ChunkDict {[ "output" := PyStr m ]};
    Cli.ChunkDict {[ "output" := PyList [] ]}], None, w).

(** A pipeline that fails after its first chunk. *)
Definition broken_stream (w : unit) (_ : Quickstart.Runnable) (m _ : string)
    : list Cli.chunk * option exception * unit :=
  ([Cli.ChunkStr m], Some StorageError, w).

(** A pipeline that only ever yields the default of the end gate. *)
Definition silent_stream (w : unit) (_ : Quickstart.Runnable) (_ _ : string)
    : list Cli.chunk * option exception * unit :=
  ([Cli.ChunkDict {[ "output" := PyList [] ]}], None, w).

(** * Properties *)

Import Utils Quickstart Contract Cli.

(** ** utils.py: the environment factories *)

Section EnvFactories.
Context `{StrMethods}.

Lemma str_truthy_true (s : string) : str_truthy s = true <-> s <> "".
Proof. destruct s; simpl; split; congruence. Qed.

Lemma str_truthy_false (s : string) : str_truthy s = false <-> s = "".
Proof. destruct s; simpl; split; congruence. Qed.

Lemma append_cons (c : ascii) (a b : string) :
  String c a +:+ b = String c (a +:+ b).
Proof. reflexivity. Qed.

Lemma break_slash_no_slash (s : string) :
  has_slash (fst (break_slash s)) = false.
Proof.
  induction s as [|c r IH]; simpl; [reflexivity|].
  destruct (Ascii.eqb c "/") eqn:E; simpl; [reflexivity|].
  destruct (break_slash r) as [a b]; simpl in *. now rewrite E.
Qed.

Lemma break_slash_app (a b : string) :
  has_slash a = false -> break_slash (a +:+ "/" +:+ b) = (a, Some b).
Proof.
  induction a as [|c a IH]; simpl; [reflexivity|].
  destruct (Ascii.eqb c "/"); [discriminate|].
  intros Ha. now rewrite (IH Ha).
Qed.

Lemma break_slash_some (s a b : string) :
  break_slash s = (a, Some b) -> s = a +:+ "/" +:+ b.
Proof.
  revert a; induction s as [|c r IH]; simpl; intros a; [discriminate|].
  destruct (Ascii.eqb c "/") eqn:E.
  - apply Ascii.eqb_eq in E. intros [= <- <-]. now subst c.
  - destruct (break_slash r) as [a' b'] eqn:Er. intros [= <- ->].
    rewrite append_cons. f_equal. now apply IH.
Qed.

Lemma break_slash_none (s a : string) :
  break_slash s = (a, None) -> has_slash s = false.
Proof.
  revert a; induction s as [|c r IH]; simpl; intros a; [reflexivity|].
  destruct (Ascii.eqb c "/"); [discriminate|].
  destruct (break_slash r) as [a' [b'|]]; [discriminate|].
  intros _. now apply (IH a').
Qed.

Lemma has_slash_app (a b : string) :
  has_slash (a +:+ b) = has_slash a || has_slash b.
Proof.
  induction a as [|c a IH]; simpl; [reflexivity|].
  destruct (Ascii.eqb c "/"); [reflexivity | exact IH].
Qed.

(** The match succeeds on the values of the exact form, with the two parts
    as groups. *)
Lemma re_fullmatch_exact (v a b : string) :
  exact_form v a b -> re_fullmatch v = Some (a, b).
Proof.
  intros (-> & Ha & Hb & Sa & Sb). unfold re_fullmatch.
  rewrite (break_slash_app a b Sa), Sb.
  apply str_truthy_true in Ha, Hb. now rewrite Ha, Hb.
Qed.

(** And only on them. *)
Lemma re_fullmatch_some (v a b : string) :
  re_fullmatch v = Some (a, b) -> exact_form v a b.
Proof.
  unfold re_fullmatch. destruct (break_slash v) as [g1 [g2|]] eqn:E; [|discriminate].
  destruct (str_truthy g1) eqn:T1; [|discriminate].
  destruct (str_truthy g2) eqn:T2; [|discriminate].
  destruct (has_slash g2) eqn:S2; [discriminate|]. simpl.
  intros [= <- <-]. repeat split.
  - now apply break_slash_some.
  - now apply str_truthy_true.
  - now apply str_truthy_true.
  - pose proof (break_slash_no_slash v) as P. now rewrite E in P.
  - exact S2.
Qed.

Lemma re_fullmatch_none (v : string) :
  (forall a b, ~ exact_form v a b) -> re_fullmatch v = None.
Proof.
  intros N. destruct (re_fullmatch v) as [[a b]|] eqn:E; [|reflexivity].
  destruct (N a b). now apply re_fullmatch_some.
Qed.

(** A value matches exactly when it holds one ["/"], neither first nor
    last. *)
Lemma re_fullmatch_is_Some (v : string) :
  is_Some (re_fullmatch v) <-> exists a b, exact_form v a b.
Proof.
  split.
  - intros [[a b] E]. exists a, b. now apply re_fullmatch_some.
  - intros (a & b & E). exists (a, b). now apply re_fullmatch_exact.
Qed.

(** The two groups of a value of the exact form are determined by it. *)
Lemma exact_form_unique (v a b a' b' : string) :
  exact_form v a b -> exact_form v a' b' -> a = a' /\ b = b'.
Proof.
  intros F F'. apply re_fullmatch_exact in F, F'.
  rewrite F in F'. now injection F' as <- <-.
Qed.

(** [[^/]+] matches the non-empty strings without ["/"]. *)
Lemma fullmatches_no_slash (s : string) :
  fullmatches (Plus (NotChar "/")) s <-> s <> "" /\ has_slash s = false.
Proof.
  split.
  - intros M. remember (Plus (NotChar "/")) as r eqn:Er.
    induction M as [c x N | c | r s M _ | r s1 s2 M1 _ M2 IH | r1 r2 s1 s2 _ _ _ _];
      try discriminate; injection Er as ->.
    + inversion M as [c x N | | | |]; subst. split; [discriminate|].
      simpl. apply Ascii.eqb_neq in N. now rewrite N.
    + inversion M1 as [c x N | | | |]; subst.
      destruct (IH eq_refl) as [_ S2]. split; [discriminate|].
      rewrite append_cons. simpl. apply Ascii.eqb_neq in N. now rewrite N.
  - intros [N S]. induction s as [|c r IH]; [congruence|].
    simpl in S. destruct (Ascii.eqb c "/") eqn:E; [discriminate|].
    apply Ascii.eqb_neq in E.
    destruct r as [|c' r'].
    + apply match_Plus_once. now constructor.
    + change (String c (String c' r')) with (String c "" +:+ String c' r').
      apply match_Plus_more; [now constructor|].
      apply IH; [discriminate | exact S].
Qed.

(** The pattern matches the values of the exact form, and no other. *)
Lemma fullmatches_exact_form (v : string) :
  fullmatches provider_model_pattern v <-> exists a b, exact_form v a b.
Proof.
  unfold provider_model_pattern. split.
  - intros M. inversion M as [ | | | | r1 r2 a s Ma Ms]; subst.
    inversion Ms as [ | | | | r1 r2 sl b Msl Mb]; subst.
    inversion Msl; subst.
    apply fullmatches_no_slash in Ma, Mb.
    exists a, b. unfold exact_form. tauto.
  - intros (a & b & -> & Na & Nb & Sa & Sb).
    apply match_Seq; [now apply fullmatches_no_slash|].
    change ("/" +:+ b) with (String "/" "" +:+ b).
    apply match_Seq; [constructor | now apply fullmatches_no_slash].
Qed.

(** [re_fullmatch] succeeds exactly on the strings the pattern matches. *)
Lemma re_fullmatch_pattern (v : string) :
  is_Some (re_fullmatch v) <-> fullmatches provider_model_pattern v.
Proof. now rewrite re_fullmatch_is_Some, fullmatches_exact_form. Qed.

(** Without a match both factories are [from_default]. *)
Lemma factories_without_match key default error_message
    (environ : gmap string string) :
  (forall v, environ !! key = Some v -> forall a b, ~ exact_form v a b) ->
  get_provider_from_env key default error_message environ
    = from_default key default error_message /\
  get_model_from_env key default error_message environ
    = from_default key default error_message.
Proof.
  intros N. unfold get_provider_from_env, get_model_from_env.
  destruct (environ !! key) as [v|]; [|split; reflexivity].
  rewrite (re_fullmatch_none v (N v eq_refl)). split; reflexivity.
Qed.

(** With a string as default the factories never raise. *)
Lemma get_provider_from_env_default key d error_message
    (environ : gmap string string) :
  exists p, get_provider_from_env key (DefaultStr d) error_message environ
            = Ok (Some p).
Proof.
  unfold get_provider_from_env.
  destruct (environ !! key) as [v|]; [|now exists d].
  destruct (re_fullmatch v) as [[g1 g2]|]; [now exists (lower g1) | now exists d].
Qed.

Lemma get_model_from_env_default key d error_message
    (environ : gmap string string) :
  exists m, get_model_from_env key (DefaultStr d) error_message environ
            = Ok (Some m).
Proof.
  unfold get_model_from_env.
  destruct (environ !! key) as [v|]; [|now exists d].
  destruct (re_fullmatch v) as [[g1 g2]|]; [now exists (lower g2) | now exists d].
Qed.

(** C8 (as amended).  When the variable [key] holds a value of the exact form
    [A/B], the provider factory returns [A] lowercased and the model factory
    [B] lowercased.  For any other value, and when the variable is unset, both
    return the default when it is a string or [None]; without a default they
    raise [ValueError] with [error_message] when it is given and not empty,
    and with the "Did not find" message when it is absent or empty. *)
Theorem factories_from_env key default error_message
    (environ : gmap string string) :
  let provider := get_provider_from_env key default error_message environ in
  let model := get_model_from_env key default error_message environ in
  (forall v a b, environ !! key = Some v -> exact_form v a b ->
     provider = Ok (Some (lower a)) /\ model = Ok (Some (lower b))) /\
  ((forall v, environ !! key = Some v -> forall a b, ~ exact_form v a b) ->
     provider = model /\
     (forall d, default = DefaultStr d -> provider = Ok (Some d)) /\
     (default = DefaultNone -> provider = Ok None) /\
     (forall m, default = NOT_GIVEN -> error_message = Some m -> m <> "" ->
        provider = Raise (ValueError m)) /\
     (default = NOT_GIVEN -> error_message = None \/ error_message = Some "" ->
        provider = Raise (ValueError (did_not_find key)))).
Proof.
  intros provider model. split.
  - intros v a b Hv Hf. subst provider model.
    unfold get_provider_from_env, get_model_from_env.
    rewrite Hv, (re_fullmatch_exact v a b Hf). split; reflexivity.
  - intros N. destruct (factories_without_match key default error_message environ N)
      as [Ep Em].
    subst provider model. rewrite Ep, Em. split; [reflexivity|].
    unfold from_default. repeat split.
    + now intros d ->.
    + now intros ->.
    + intros m -> -> Hm. apply str_truthy_true in Hm. now rewrite Hm.
    + intros -> [-> | ->]; reflexivity.
Qed.

End EnvFactories.

(** C8, at concrete inputs: a well-formed value, a malformed value with a
    default, and a missing variable with an error message. *)
Lemma factories_from_env_witness :
  (get_provider_from_env "CHAT_MODEL" NOT_GIVEN None
     {[ "CHAT_MODEL" := "OpenAI/GPT-4.1" ]} = Ok (Some "openai") /\
   get_model_from_env "CHAT_MODEL" NOT_GIVEN None
     {[ "CHAT_MODEL" := "OpenAI/GPT-4.1" ]} = Ok (Some "gpt-4.1")) /\
  get_provider_from_env "CHAT_MODEL" (DefaultStr "openai") None
     {[ "CHAT_MODEL" := "gpt-4.1" ]} = Ok (Some "openai") /\
  get_provider_from_env "CHAT_MODEL" NOT_GIVEN (Some "no model") ∅
     = Raise (ValueError "no model").
Proof.
  split; [|split].
  - assert (F : exact_form "OpenAI/GPT-4.1" "OpenAI" "GPT-4.1")
      by (unfold exact_form; repeat split; try reflexivity; discriminate).
    exact (proj1 (factories_from_env "CHAT_MODEL" NOT_GIVEN None
                    {[ "CHAT_MODEL" := "OpenAI/GPT-4.1" ]})
             "OpenAI/GPT-4.1" "OpenAI" "GPT-4.1" eq_refl F).
  - apply (proj2 (factories_from_env "CHAT_MODEL" (DefaultStr "openai") None
                    {[ "CHAT_MODEL" := "gpt-4.1" ]})).
    + intros v Hv a b Hf. apply re_fullmatch_exact in Hf.
      rewrite lookup_singleton_eq in Hv. injection Hv as <-.
      vm_compute in Hf. discriminate.
    + reflexivity.
  - apply (proj2 (factories_from_env "CHAT_MODEL" NOT_GIVEN (Some "no model") ∅)).
    + intros v Hv. rewrite lookup_empty in Hv. discriminate.
    + reflexivity.
    + reflexivity.
    + discriminate.
Defined.

(** C8 as it was stated fails for an empty [error_message]: it is given, and
    the factory raises the "Did not find" message instead of it. *)
Lemma factories_empty_error_message :
  get_provider_from_env "CHAT_MODEL" NOT_GIVEN (Some "") ∅
    = Raise (ValueError (did_not_find "CHAT_MODEL")) /\
  get_provider_from_env "CHAT_MODEL" NOT_GIVEN (Some "") ∅
    <> Raise (ValueError "") /\
  get_model_from_env "CHAT_MODEL" NOT_GIVEN (Some "") ∅
    <> Raise (ValueError "").
Proof. repeat split; discriminate. Qed.

(** ** utils.py: the calendar behind [format_datetime_relative] *)

Section Calendar.

Lemma date_eqb_eq (a b : date) : date_eqb a b = true <-> a = b.
Proof.
  destruct a as [y m d], b as [y' m' d']. unfold date_eqb; simpl.
  rewrite !andb_true_iff, !Z.eqb_eq. split.
  - intros [[-> ->] ->]. reflexivity.
  - intros [= -> -> ->]. auto.
Qed.

Lemma date_eqb_neq (a b : date) : date_eqb a b = false <-> a <> b.
Proof.
  rewrite <- date_eqb_eq. destruct (date_eqb a b); split; congruence.
Qed.

Lemma is_leap_cases (y : Z) :
  is_leap y = true /\ (y mod 4 = 0 /\ (y mod 100 <> 0 \/ y mod 400 = 0)) \/
  is_leap y = false /\ (y mod 4 <> 0 \/ (y mod 100 = 0 /\ y mod 400 <> 0)).
Proof.
  unfold is_leap.
  destruct (Z.eqb_spec (y mod 4) 0), (Z.eqb_spec (y mod 100) 0),
    (Z.eqb_spec (y mod 400) 0); simpl; intuition lia.
Qed.

(** A year has 365 days, and one more when it is a leap year. *)
Lemma days_before_year_succ (y : Z) :
  days_before_year (y + 1)
  = days_before_year y + 365 + (if is_leap y then 1 else 0).
Proof.
  unfold days_before_year. cbv zeta.
  replace (y + 1 - 1) with y by lia.
  destruct (is_leap_cases y) as [[-> L] | [-> L]];
    Z.to_euclidean_division_equations; lia.
Qed.

Lemma days_before_year_mono (y y' : Z) :
  y <= y' -> days_before_year y <= days_before_year y'.
Proof.
  unfold days_before_year. cbv zeta. intros L.
  Z.to_euclidean_division_equations. lia.
Qed.

(** The months of a year, one after the other. *)
Lemma days_before_month_succ (y m : Z) :
  1 <= m <= 11 ->
  days_before_month y (m + 1) = days_before_month y m + days_in_month y m.
Proof.
  intros Hm.
  assert (C : m = 1 \/ m = 2 \/ m = 3 \/ m = 4 \/ m = 5 \/ m = 6 \/ m = 7 \/
              m = 8 \/ m = 9 \/ m = 10 \/ m = 11) by lia.
  unfold days_before_month, days_in_month.
  destruct C as [-> | [-> | [-> | [-> | [-> | [-> | [-> | [-> | [-> | [-> | ->]]]]]]]]]];
    simpl; destruct (is_leap y); reflexivity.
Qed.

Lemma days_in_month_bounds (y m : Z) :
  1 <= m <= 12 -> 28 <= days_in_month y m <= 31.
Proof.
  intros Hm.
  assert (C : m = 1 \/ m = 2 \/ m = 3 \/ m = 4 \/ m = 5 \/ m = 6 \/ m = 7 \/
              m = 8 \/ m = 9 \/ m = 10 \/ m = 11 \/ m = 12) by lia.
  unfold days_in_month.
  destruct C as [-> | [-> | [-> | [-> | [-> | [-> | [-> | [-> | [-> | [-> | [-> | ->]]]]]]]]]]];
    simpl; try destruct (is_leap y); lia.
Qed.

Lemma days_before_month_mono (y m m' : Z) :
  1 <= m -> m < m' <= 12 ->
  days_before_month y m + days_in_month y m <= days_before_month y m'.
Proof.
  intros H1 H2.
  assert (E : exists k, m' = m + 1 + Z.of_nat k) by (exists (Z.to_nat (m' - m - 1)); lia).
  destruct E as [k ->]. induction k as [|k IH].
  - rewrite Z.add_0_r, days_before_month_succ by lia. lia.
  - replace (m + 1 + Z.of_nat (S k)) with (m + 1 + Z.of_nat k + 1) by lia.
    rewrite days_before_month_succ by lia.
    pose proof (days_in_month_bounds y (m + 1 + Z.of_nat k)). lia.
Qed.

(** December ends the year. *)
Lemma days_before_month_end (y : Z) :
  days_before_month y 12 + days_in_month y 12
  = 365 + (if is_leap y then 1 else 0).
Proof. unfold days_before_month, days_in_month; simpl. destruct (is_leap y); reflexivity. Qed.

(** The ordinal of a valid date lies within the days of its year. *)
Lemma toordinal_in_year (d : date) :
  valid_date d ->
  days_before_year (year d) < toordinal d <= days_before_year (year d + 1).
Proof.
  intros (Hy & Hm & Hd). unfold toordinal.
  rewrite days_before_year_succ.
  pose proof (days_before_month_end (year d)) as End.
  assert (0 <= days_before_month (year d) (month d)).
  { destruct (Z.eq_dec (month d) 1) as [->|].
    - unfold days_before_month; simpl. lia.
    - pose proof (days_before_month_mono (year d) 1 (month d)).
      pose proof (days_in_month_bounds (year d) 1).
      assert (days_before_month (year d) 1 = 0) by reflexivity. lia. }
  destruct (Z.eq_dec (month d) 12) as [E|].
  - rewrite E in *. lia.
  - pose proof (days_before_month_mono (year d) (month d) 12).
    pose proof (days_in_month_bounds (year d) 12). lia.
Qed.

(** Two valid dates with the same ordinal are the same date. *)
Lemma toordinal_inj (a b : date) :
  valid_date a -> valid_date b -> toordinal a = toordinal b -> a = b.
Proof.
  intros Va Vb E.
  pose proof (toordinal_in_year a Va) as Ia.
  pose proof (toordinal_in_year b Vb) as Ib.
  assert (Ey : year a = year b).
  { destruct (Z.lt_trichotomy (year a) (year b)) as [L | [L | L]]; [|exact L|].
    - pose proof (days_before_year_mono (year a + 1) (year b)). lia.
    - pose proof (days_before_year_mono (year b + 1) (year a)). lia. }
  destruct Va as (_ & Ma & Da), Vb as (_ & Mb & Db).
  unfold toordinal in E. rewrite Ey in *.
  assert (Em : month a = month b).
  { destruct (Z.lt_trichotomy (month a) (month b)) as [L | [L | L]]; [|exact L|].
    - pose proof (days_before_month_mono (year b) (month a) (month b)). lia.
    - pose proof (days_before_month_mono (year b) (month b) (month a)). lia. }
  rewrite Em in *. destruct a, b; simpl in *. f_equal; lia.
Qed.

(** The model of [d - timedelta(days=1)] is the date whose ordinal is one
    less, and it is a valid date. *)
Lemma date_sub_one_day_ordinal (d d' : date) :
  valid_date d -> date_sub_one_day d = Ok d' ->
  valid_date d' /\ toordinal d' = toordinal d - 1.
Proof.
  intros (Hy & Hm & Hd). unfold date_sub_one_day.
  destruct (Z.ltb_spec 1 (day d)) as [L1|L1].
  - intros [= <-]. unfold valid_date, toordinal; simpl. lia.
  - destruct (Z.ltb_spec 1 (month d)) as [L2|L2].
    + intros [= <-]. unfold valid_date, toordinal; simpl.
      pose proof (days_in_month_bounds (year d) (month d - 1)).
      pose proof (days_before_month_succ (year d) (month d - 1)) as S.
      replace (month d - 1 + 1) with (month d) in S by lia. lia.
    + destruct (Z.ltb_spec 1 (year d)) as [L3|L3]; [|discriminate].
      intros [= <-]. unfold valid_date, toordinal; simpl.
      assert (Em : month d = 1) by lia. rewrite Em.
      pose proof (days_before_year_succ (year d - 1)) as S.
      replace (year d - 1 + 1) with (year d) in S by lia.
      pose proof (days_before_month_end (year d - 1)) as E. simpl in E.
      change (days_in_month (year d - 1) 12) with 31 in *.
      change (days_before_month (year d) 1) with 0.
      split; [lia|]. lia.
Qed.

(** The subtraction raises exactly at [date.min]. *)
Lemma date_sub_one_day_raises (d : date) :
  valid_date d ->
  (exists e, date_sub_one_day d = Raise e) <-> d = date_min.
Proof.
  intros (Hy & Hm & Hd). unfold date_sub_one_day. split.
  - destruct (Z.ltb_spec 1 (day d)); [intros [e [=]]|].
    destruct (Z.ltb_spec 1 (month d)); [intros [e [=]]|].
    destruct (Z.ltb_spec 1 (year d)); [intros [e [=]]|].
    intros _. destruct d; unfold date_min; simpl in *. f_equal; lia.
  - intros ->. simpl. eauto.
Qed.

End Calendar.

(** ** utils.py: [format_datetime_relative] *)

(** C9 (as amended).  For valid datetimes [old_time] and [now] with [now] not
    on [date.min], the result is [HH:MM] of [old_time] when both fall on the
    same date, [Yesterday HH:MM] when the date of [old_time] is the day before
    the date of [now], and [old_time.strftime("%Y/%m/%d")] followed by a
    space and [HH:MM] in every other case, future dates and older dates
    alike; from year 1000 on that is [YYYY/MM/DD HH:MM] on every platform. *)
Theorem format_datetime_relative_cases `{Strftime}
    (clock old_time now : datetime) :
  valid_datetime old_time -> valid_datetime now -> date_of now <> date_min ->
  let r := format_datetime_relative clock old_time (Some now) in
  (date_of old_time = date_of now -> r = Ok (strftime_HM old_time)) /\
  (toordinal (date_of old_time) + 1 = toordinal (date_of now) ->
     r = Ok ("Yesterday " +:+ strftime_HM old_time)) /\
  (date_of old_time <> date_of now ->
   toordinal (date_of old_time) + 1 <> toordinal (date_of now) ->
     r = Ok (strftime_Ymd old_time +:+ " " +:+ strftime_HM old_time) /\
     (1000 <= dt_year old_time ->
        r = Ok (pad4 (dt_year old_time) +:+ "/" +:+ pad2 (dt_month old_time)
                +:+ "/" +:+ pad2 (dt_day old_time) +:+ " " +:+
                pad2 (dt_hour old_time) +:+ ":" +:+
                pad2 (dt_minute old_time)))).
Proof.
  intros [Vo _] [Vn _] Hmin r. subst r. unfold format_datetime_relative.
  destruct (date_sub_one_day (date_of now)) as [yesterday|e] eqn:E.
  - destruct (date_sub_one_day_ordinal _ _ Vn E) as [Vy Oy].
    split; [|split].
    + intros Same. apply date_eqb_eq in Same. now rewrite Same.
    + intros Before.
      assert (Ey : date_of old_time = yesterday)
        by (apply toordinal_inj; [assumption | assumption | lia]).
      assert (Ne : date_of old_time <> date_of now)
        by (intros Same; rewrite Same in Before; lia).
      apply date_eqb_neq in Ne. apply date_eqb_eq in Ey. now rewrite Ne, Ey.
    + intros Ne NotBefore.
      assert (Ny : date_of old_time <> yesterday)
        by (intros Ey; rewrite Ey in NotBefore; lia).
      apply date_eqb_neq in Ne, Ny. rewrite Ne, Ny.
      split; [reflexivity|]. intros Y.
      destruct Vo as [Yo _]. simpl in Yo.
      unfold strftime_Ymd. rewrite format_Y_four by lia.
      unfold strftime_HM. reflexivity.
  - destruct Hmin. apply date_sub_one_day_raises; eauto.
Qed.

(** C9, on the three cases around the end of February 2024. *)
Lemma format_datetime_relative_witness :
  format_datetime_relative (mkdatetime 2000 1 1 0 0 0 0)
    (mkdatetime 2024 3 1 9 5 0 0) (Some (mkdatetime 2024 3 1 23 0 0 0))
    = Ok "09:05" /\
  format_datetime_relative (mkdatetime 2000 1 1 0 0 0 0)
    (mkdatetime 2024 2 29 9 5 0 0) (Some (mkdatetime 2024 3 1 23 0 0 0))
    = Ok "Yesterday 09:05" /\
  format_datetime_relative (mkdatetime 2000 1 1 0 0 0 0)
    (mkdatetime 2024 3 2 9 5 0 0) (Some (mkdatetime 2024 3 1 23 0 0 0))
    = Ok "2024/03/02 09:05".
Proof.
  assert (V : forall d h, 1 <= d <= 29 -> 0 <= h <= 23 ->
                valid_datetime (mkdatetime 2024 3 d h 5 0 0)).
  { intros d h Hd Hh. unfold valid_datetime, valid_date; simpl. lia. }
  assert (V' : valid_datetime (mkdatetime 2024 2 29 9 5 0 0)).
  { unfold valid_datetime, valid_date; simpl. lia. }
  assert (V'' : valid_datetime (mkdatetime 2024 3 1 23 0 0 0)).
  { unfold valid_datetime, valid_date; simpl. lia. }
  assert (N : date_of (mkdatetime 2024 3 1 23 0 0 0) <> date_min) by discriminate.
  split; [|split].
  - apply (format_datetime_relative_cases (mkdatetime 2000 1 1 0 0 0 0)
             (mkdatetime 2024 3 1 9 5 0 0) (mkdatetime 2024 3 1 23 0 0 0)
             (V 1 9 ltac:(lia) ltac:(lia)) V'' N).
    reflexivity.
  - apply (format_datetime_relative_cases (mkdatetime 2000 1 1 0 0 0 0)
             (mkdatetime 2024 2 29 9 5 0 0) (mkdatetime 2024 3 1 23 0 0 0)
             V' V'' N).
    reflexivity.
  - apply (format_datetime_relative_cases (mkdatetime 2000 1 1 0 0 0 0)
             (mkdatetime 2024 3 2 9 5 0 0) (mkdatetime 2024 3 1 23 0 0 0)
             (V 2 9 ltac:(lia) ltac:(lia)) V'' N).
    + discriminate.
    + vm_compute. discriminate.
    + simpl. lia.
Defined.

(** C9 as it was stated fails in two ways.  When [now] falls on [date.min]
    the day before does not exist, and the call raises [OverflowError]
    whatever [old_time] is, also for an [old_time] on the same date.  And
    with the [%Y] of glibc an [old_time] in the year 999 is formatted with a
    year of three digits, not as [YYYY/MM/DD HH:MM]. *)
Lemma format_datetime_relative_date_min :
  let t := mkdatetime 1 1 1 10 30 0 0 in
  let old := mkdatetime 999 5 6 7 8 0 0 in
  let now := mkdatetime 2024 3 1 12 0 0 0 in
  (valid_datetime t /\
   date_of t = date_of t /\
   format_datetime_relative t t (Some t)
     = Raise (OverflowError "date value out of range") /\
   format_datetime_relative t t (Some t) <> Ok "10:30") /\
  (valid_datetime old /\ valid_datetime now /\
   format_datetime_relative (H:=glibc_strftime) now old (Some now)
     = Ok "999/05/06 07:08" /\
   format_datetime_relative (H:=glibc_strftime) now old (Some now)
     <> Ok "0999/05/06 07:08" /\
   format_datetime_relative (H:=padded_strftime) now old (Some now)
     = Ok "0999/05/06 07:08").
Proof.
  repeat split; try discriminate; unfold valid_date; simpl; lia.
Qed.

(** ** utils.py: [sync_ctx_manager_wrapper] *)

Section CtxManager.
Context {T R : Type}.

Lemma raised_is_refl (e : raised) : raised_is e e = true.
Proof.
  induction e as [c i | m | m c IH | c s IH]; simpl.
  - rewrite Nat.eqb_refl. now destruct c.
  - apply String.eqb_refl.
  - now rewrite String.eqb_refl, IH.
  - rewrite IH. now destruct c.
Qed.

(** [__aexit__] lets an exception propagate when the generator re-raised it:
    it answers [False], for the exception itself and for the [RuntimeError]
    that replaces a [StopIteration] or a [StopAsyncIteration]. *)
Lemma aexit_reraised (start resume : traced (gen_step T)) throw calls e :
  throw e = (calls, Throw (leave_generator e)) ->
  __aexit__ (asynccontextmanager start resume throw) (Some e)
  = (calls, Returns false).
Proof.
  intros E. simpl. rewrite E.
  destruct e as [[] i | m | m c | [] s]; simpl;
    rewrite ?Nat.eqb_refl, ?String.eqb_refl, ?raised_is_refl; reflexivity.
Qed.

(** The three runs of [async with] around a manager that records its calls
    and whose [__enter__] returns [v]. *)
Lemma run_body_returns (v : T) exited to_thread (body : T -> outcome R) r :
  body v = Returns r ->
  async_with (sync_ctx_manager_wrapper (recording_cm (Returns v) exited)
                to_thread) body
  = ([EnterCall to_thread; ExitCall to_thread None],
     match awaited to_thread (exited None) with
     | Returns _ => Returns (Some r)
     | Raises e => Raises (leave_generator e)
     | Hangs => Hangs
     end).
Proof.
  intros B. unfold async_with, sync_ctx_manager_wrapper.
  change (__aenter__ _) with ([EnterCall to_thread], Returns (A:=T) v).
  cbv beta iota zeta. rewrite B.
  unfold asynccontextmanager, wrapper_resume, sync_func_wrapper, recording_cm.
  cbn [__aexit__ __exit__ app].
  now destruct (awaited to_thread (exited None)).
Qed.

Lemma run_body_raises_Exception (v : T) exited to_thread
    (body : T -> outcome R) e b :
  body v = Raises e -> is_Exception e = true ->
  exited (Some e) = Returns b ->
  async_with (sync_ctx_manager_wrapper (recording_cm (Returns v) exited)
                to_thread) body
  = ([EnterCall to_thread; ExitCall to_thread (Some e)],
     if b then Returns None else Raises e).
Proof.
  intros B Ex X. unfold async_with, sync_ctx_manager_wrapper.
  change (__aenter__ _) with ([EnterCall to_thread], Returns (A:=T) v).
  cbv beta iota zeta. rewrite B.
  destruct b.
  - simpl. unfold wrapper_throw, wrapper_except, sync_func_wrapper.
    rewrite Ex. simpl. now rewrite X.
  - rewrite (aexit_reraised _ _ _ [ExitCall to_thread (Some e)]); [reflexivity|].
    unfold wrapper_throw, wrapper_except, sync_func_wrapper.
    rewrite Ex. simpl. now rewrite X.
Qed.

Lemma run_body_raises_BaseException (v : T) exited to_thread
    (body : T -> outcome R) e :
  body v = Raises e -> is_Exception e = false ->
  async_with (sync_ctx_manager_wrapper (recording_cm (Returns v) exited)
                to_thread) body
  = ([EnterCall to_thread], Raises e).
Proof.
  intros B Ex. unfold async_with, sync_ctx_manager_wrapper.
  change (__aenter__ _) with ([EnterCall to_thread], Returns (A:=T) v).
  cbv beta iota zeta. rewrite B.
  rewrite (aexit_reraised _ _ _ []); [reflexivity|].
  unfold wrapper_throw, wrapper_except. now rewrite Ex.
Qed.

(** C10.  Around a manager whose [__enter__] returns [v]:
    - a body that returns makes one call of [__exit__], with
      [(None, None, None)];
    - a body that raises an [Exception] makes one call of [__exit__], with
      that exception, and the exception propagates exactly when the call
      returns a falsy value (it is suppressed otherwise);
    - a body that raises a [BaseException] outside [Exception] makes no call
      of [__exit__], and the exception propagates. *)
Theorem sync_ctx_manager_wrapper_exit (v : T)
    (exited : option raised -> outcome bool) (to_thread : bool)
    (body : T -> outcome R) :
  let run := async_with
               (sync_ctx_manager_wrapper (recording_cm (Returns v) exited)
                  to_thread) body in
  (forall r, body v = Returns r -> exit_calls (fst run) = [None]) /\
  (forall e, body v = Raises e -> is_Exception e = true ->
     exit_calls (fst run) = [Some e] /\
     forall b, exited (Some e) = Returns b ->
       (snd run = Raises e <-> b = false) /\
       (snd run = Returns None <-> b = true)) /\
  (forall e, body v = Raises e -> is_Exception e = false ->
     exit_calls (fst run) = [] /\ snd run = Raises e).
Proof.
  intros run. subst run. split; [|split].
  - intros r B. now rewrite (run_body_returns v exited to_thread body r B).
  - intros e B Ex. split.
    + unfold async_with.
      change (__aenter__ _) with ([EnterCall to_thread], Returns (A:=T) v).
      cbv beta iota zeta. rewrite B. simpl.
      unfold wrapper_throw, wrapper_except, sync_func_wrapper. rewrite Ex.
      reflexivity.
    + intros b X.
      rewrite (run_body_raises_Exception v exited to_thread body e b B Ex X).
      destruct b; simpl; split; split; congruence.
  - intros e B Ex.
    now rewrite (run_body_raises_BaseException v exited to_thread body e B Ex).
Qed.

End CtxManager.

(** C10, on a manager that suppresses nothing, run through the executor: the
    three kinds of body. *)
Lemma sync_ctx_manager_wrapper_exit_witness :
  let run body := async_with
                    (sync_ctx_manager_wrapper
                       (recording_cm (Returns tt) (fun _ => Returns false)) true)
                    body in
  exit_calls (fst (run (fun _ => Returns 7))) = [None] /\
  (exit_calls (fst (run (fun _ => Raises (A:=Z) (Exc ExceptionClass 1))))
     = [Some (Exc ExceptionClass 1)] /\
   snd (run (fun _ => Raises (A:=Z) (Exc ExceptionClass 1)))
     = Raises (Exc ExceptionClass 1)) /\
  (exit_calls (fst (run (fun _ => Raises (A:=Z) (Exc BaseOnly 2)))) = [] /\
   snd (run (fun _ => Raises (A:=Z) (Exc BaseOnly 2))) = Raises (Exc BaseOnly 2)).
Proof.
  intros run. split; [|split].
  - exact (proj1 (sync_ctx_manager_wrapper_exit tt (fun _ => Returns false) true
                    (fun _ => Returns 7)) 7 eq_refl).
  - pose proof (proj1 (proj2 (sync_ctx_manager_wrapper_exit tt
                  (fun _ => Returns false) true
                  (fun _ => Raises (A:=Z) (Exc ExceptionClass 1))))
                  (Exc ExceptionClass 1) eq_refl eq_refl) as [C P].
    split; [exact C|]. now apply (P false eq_refl).
  - exact (proj2 (proj2 (sync_ctx_manager_wrapper_exit tt
                  (fun _ => Returns false) true
                  (fun _ => Raises (A:=Z) (Exc BaseOnly 2))))
                  (Exc BaseOnly 2) eq_refl eq_refl).
Defined.

(** ** quickstart.py: the pipeline that [build_pipeline] assembles *)

(** Runs the constructors of [quickstart.py] down to the calls of the
    environment factories. *)
Ltac run_constructors :=
  unfold build_pipeline, create_embeddings, create_history_store,
    create_vector_store, create_chat, create_agent,
    mbind, mret, M_bind, M_ret, call, new_id.

Section Pipeline.
Context `{StrMethods}.
Variable to_messages : string -> list string.
Variable environ : gmap string string.

(** The object that [build_pipeline] returns, the constructors of the
    classes it imports taken to return: every environment factory it calls
    has a default, and the identities are drawn in the order of the
    constructor calls. *)
Lemma build_pipeline_shape (lang prompt : option string)
    (index_name folder_path : string) (n : oid) :
  exists eprovider emodel cprovider cmodel,
    let embeddings :=
      {| embeddings_id := n;
         embeddings_provider := Some eprovider;
         embeddings_model := Some emodel |} in
    let history_store :=
      {| history_store_id := (1 + n)%nat;
         db_url := "sqlite:///" +:+ folder_path +:+ "/" +:+ index_name
                   +:+ ".sqlite" |} in
    let vector_store :=
      {| vector_store_id := (2 + n)%nat;
         Quickstart.folder_path := folder_path;
         Quickstart.index_name := index_name;
         Quickstart.embeddings := embeddings;
         allow_dangerous_deserialization := true;
         auto_save := true |} in
    let agent :=
      StringSingleTurnChat (3 + n)%nat (resolve_lang environ lang)
        (Some cprovider) (Some cmodel)
        (agent_contexts to_messages (resolve_lang environ lang) prompt) in
    build_pipeline to_messages environ lang prompt index_name folder_path n
    = Ok (RunnableWithHistoryStore (8 + n)%nat
            (RunnableWithEndDetector (6 + n)%nat
               (RunnableWithMemoryMaker (4 + n)%nat agent history_store
                  vector_store "input" "history" "short_memory" "long_memory")
               {| end_detector_id := (5 + n)%nat |}
               {[ "output" := PyList [] ]} "history")
            history_store {| time_splitter_id := (7 + n)%nat |}
            "input" "history",
          (9 + n)%nat).
Proof.
  destruct (get_provider_from_env_default "EMBEDDINGS_MODEL"
              (str_or None "openai") None environ) as [ep Ep].
  destruct (get_model_from_env_default "EMBEDDINGS_MODEL"
              (str_or None "text-embedding-ada-002") None environ) as [em Em].
  destruct (get_provider_from_env_default "CHAT_MODEL"
              (str_or None "openai") None environ) as [cp Cp].
  destruct (get_model_from_env_default "CHAT_MODEL"
              (str_or None "gpt-4.1") None environ) as [cm Cm].
  exists ep, em, cp, cm.
  run_constructors. rewrite Ep, Em, Cp, Cm. reflexivity.
Qed.


(** C3.  The memory maker of the pipeline is configured with the four keys
    ["input"], ["history"], ["short_memory"] and ["long_memory"], and the
    templates of the agents built by [create_chat] and [create_agent]
    consume the placeholders ["long_memory"] and ["history"], the latter
    optional, and no other. *)
Theorem build_pipeline_context_keys (lang prompt : option string)
    (index_name folder_path : string) (n : oid) :
  (exists pipeline gate composer agent contexts n',
     build_pipeline to_messages environ lang prompt index_name folder_path n
       = Ok (pipeline, n') /\
     bound_of pipeline = Some gate /\ bound_of gate = Some composer /\
     bound_of composer = Some agent /\
     memory_keys composer = ["input"; "history"; "short_memory"; "long_memory"] /\
     contexts_of agent = Some contexts /\
     placeholders contexts = [("long_memory", false); ("history", true)]) /\
  (forall provider model, exists agent contexts n',
     create_chat to_messages environ lang prompt provider model n
       = Ok (agent, n') /\
     contexts_of agent = Some contexts /\
     placeholders contexts = [("long_memory", false); ("history", true)]) /\
  (forall tools provider model, exists agent contexts n',
     create_agent to_messages environ lang prompt tools provider model n
       = Ok (agent, n') /\
     contexts_of agent = Some contexts /\
     placeholders contexts = [("long_memory", false); ("history", true)]).
Proof.
  assert (P : forall l, placeholders (agent_contexts to_messages l prompt)
                        = [("long_memory", false); ("history", true)]).
  { intros l. unfold agent_contexts, placeholders, prompt_list. simpl.
    rewrite flat_map_app. simpl.
    replace (flat_map _ (map Text _)) with (@nil (string * bool)); [reflexivity|].
    generalize (match prompt with
                | Some p => if str_truthy p then [p] else to_messages l
                | None => to_messages l
                end ++ [newline]).
    intros texts. induction texts as [|t ts IH]; simpl; [reflexivity|exact IH]. }
  split; [|split].
  - destruct (build_pipeline_shape lang prompt index_name folder_path n)
      as (ep & em & cp & cm & E).
    cbv zeta in E. rewrite E.
    do 6 eexists. split; [reflexivity|].
    repeat (split; [reflexivity|]). apply P.
  - intros provider model.
    destruct (get_provider_from_env_default "CHAT_MODEL"
                (str_or provider "openai") None environ) as [cp Cp].
    destruct (get_model_from_env_default "CHAT_MODEL"
                (str_or model "gpt-4.1") None environ) as [cm Cm].
    run_constructors. rewrite Cp, Cm. do 3 eexists. split; [reflexivity|].
    split; [reflexivity|]. apply P.
  - intros tools provider model.
    destruct (get_provider_from_env_default "AGENT_MODEL"
                (str_or provider "openai") None environ) as [cp Cp].
    destruct (get_model_from_env_default "AGENT_MODEL"
                (str_or model "gpt-4.1") None environ) as [cm Cm].
    run_constructors. rewrite Cp, Cm. do 3 eexists. split; [reflexivity|].
    split; [reflexivity|]. apply P.
Qed.

(** *** The history store behind the pipeline *)

Section SharedHistory.
Context {Turn : Type}.
Implicit Types (μ : gmap oid (history_state Turn)) (σ : history_state Turn).

Lemma append_ok σ σ' session (turn : Turn) :
  append σ session turn = Ok σ' ->
  reachable σ' = true /\
  turns σ' !! session = Some (default [] (turns σ !! session) ++ [turn]) /\
  (forall s, s <> session -> turns σ' !! s = turns σ !! s).
Proof.
  unfold append. destruct (reachable σ); [|discriminate].
  intros [= <-]. simpl. split; [reflexivity|]. split.
  - apply lookup_insert_eq.
  - intros s Hs. now apply lookup_insert_ne.
Qed.

Lemma append_reachable σ session (turn : Turn) :
  reachable σ = true -> exists σ', append σ session turn = Ok σ'.
Proof. intros R. unfold append. rewrite R. eauto. Qed.

Lemma state_of_append_to μ μ' h session (turn : Turn) h' :
  append_to μ h session turn = Ok μ' ->
  state_of μ' h' =
    if decide (history_store_id h = history_store_id h')
    then match append (state_of μ h) session turn with
         | Ok σ' => σ'
         | Raise _ => state_of μ h'
         end
    else state_of μ h'.
Proof.
  unfold append_to, mbind, result_bind.
  destruct (append (state_of μ h) session turn) as [σ'|e]; [|discriminate].
  intros [= <-]. unfold state_of at 1. rewrite lookup_insert.
  case_decide; reflexivity.
Qed.

(** A write through an instance is read back through the same instance. *)
Lemma append_to_stored μ μ' h session (turn : Turn) :
  append_to μ h session turn = Ok μ' -> stored μ' h session turn.
Proof.
  intros A. pose proof (state_of_append_to _ _ _ _ _ h A) as S.
  rewrite decide_True in S by reflexivity.
  unfold append_to, mbind, result_bind in A.
  destruct (append (state_of μ h) session turn) as [σ'|e] eqn:E; [|discriminate].
  destruct (append_ok _ _ _ _ E) as (R & L & _).
  unfold stored. rewrite S, L. split; [exact R|].
  apply elem_of_app. right. apply list_elem_of_singleton. reflexivity.
Qed.

(** Later writes, through any instance, keep what was stored. *)
Lemma append_to_keeps μ μ' h session (turn : Turn) h' s' t' :
  stored μ h session turn ->
  append_to μ h' s' t' = Ok μ' -> stored μ' h session turn.
Proof.
  intros [R I] A. pose proof (state_of_append_to _ _ _ _ _ h A) as S.
  unfold stored. rewrite S. case_decide as D; [|split; assumption].
  unfold append_to, mbind, result_bind in A.
  assert (Es : state_of μ h' = state_of μ h) by (unfold state_of; now rewrite D).
  rewrite Es in *.
  destruct (append (state_of μ h) s' t') as [σ'|e] eqn:E; [|discriminate].
  destruct (append_ok _ _ _ _ E) as (R' & L & O). split; [exact R'|].
  destruct (decide (session = s')) as [->|N].
  - rewrite L. simpl. apply elem_of_app. now left.
  - now rewrite (O session N).
Qed.

Lemma append_many_keeps μ μ' h session (turn : Turn) ws :
  stored μ h session turn -> append_many μ ws = Ok μ' ->
  stored μ' h session turn.
Proof.
  revert μ. induction ws as [|[[h' s'] t'] ws IH]; simpl; intros μ St.
  - now intros [= <-].
  - unfold mbind, result_bind.
    destruct (append_to μ h' s' t') as [μ1|e] eqn:E; [|discriminate].
    apply IH. now apply (append_to_keeps μ μ1 h session turn h' s' t').
Qed.

(** A write through another instance is not seen. *)
Lemma append_to_other_instance μ μ' h h' session (turn : Turn) s limit :
  history_store_id h <> history_store_id h' ->
  append_to μ h session turn = Ok μ' ->
  get_session_history μ' h' s limit = get_session_history μ h' s limit.
Proof.
  intros N A. unfold get_session_history.
  rewrite (state_of_append_to _ _ _ _ _ h' A).
  now rewrite decide_False by exact N.
Qed.

End SharedHistory.

(** C5.  The history store that [build_pipeline] creates is the one instance
    held by the memory maker and by the outermost wrapper, so a turn appended
    through the outermost stage is among the turns that the memory maker
    reads, whatever is written afterwards; and the embeddings that
    [build_pipeline] creates are the instance behind the vector store. *)
Theorem build_pipeline_shared_stores (lang prompt : option string)
    (index_name folder_path : string) (n : oid) :
  exists pipeline gate composer n' emb n1 hs n2 vs,
    build_pipeline to_messages environ lang prompt index_name folder_path n
      = Ok (pipeline, n') /\
    bound_of pipeline = Some gate /\ bound_of gate = Some composer /\
    create_embeddings environ None None n = Ok (emb, n1) /\
    create_history_store index_name folder_path n1 = Ok (hs, n2) /\
    history_store_of pipeline = Some hs /\
    history_store_of composer = Some hs /\
    vector_store_of composer = Some vs /\
    embeddings vs = emb /\
    forall (Turn : Type) (μ μ' μ'' : gmap oid (history_state Turn))
           outer inner session (turn : Turn) ws,
      history_store_of pipeline = Some outer ->
      history_store_of composer = Some inner ->
      append_to μ outer session turn = Ok μ' ->
      append_many μ' ws = Ok μ'' ->
      exists read, get_session_history μ'' inner session None = Ok read /\
                   turn ∈ read.
Proof.
  destruct (get_provider_from_env_default "EMBEDDINGS_MODEL"
              (str_or None "openai") None environ) as [ep Ep].
  destruct (get_model_from_env_default "EMBEDDINGS_MODEL"
              (str_or None "text-embedding-ada-002") None environ) as [em Em].
  destruct (get_provider_from_env_default "CHAT_MODEL"
              (str_or None "openai") None environ) as [cp Cp].
  destruct (get_model_from_env_default "CHAT_MODEL"
              (str_or None "gpt-4.1") None environ) as [cm Cm].
  run_constructors. rewrite Ep, Em, Cp, Cm.
  do 9 eexists. split; [reflexivity|].
  do 8 (split; [reflexivity|]).
  intros Turn μ μ' μ'' outer inner session turn ws [= <-] [= <-] A Ws.
  pose proof (append_many_keeps _ _ _ _ _ _ (append_to_stored _ _ _ _ _ A) Ws)
    as [R I].
  unfold get_session_history, get_history. rewrite R. eauto.
Qed.

(** *** The end gate of the pipeline *)

(** C2.  The end-detector wrapper of the pipeline is configured with the
    default [{"output": []}], and an invocation that the detector judges
    incomplete returns this value: nothing is forwarded to the wrapped
    stages, and the fragment stays in the buffer of the session. *)
Theorem build_pipeline_gate_default (lang prompt : option string)
    (index_name folder_path : string) (n : oid) :
  exists pipeline gate n',
    build_pipeline to_messages environ lang prompt index_name folder_path n
      = Ok (pipeline, n') /\
    bound_of pipeline = Some gate /\
    default_of gate = Some {[ "output" := PyList [] ]} /\
    forall classify wrapped session fragment st,
      classify (default [] (buffers st !! session) ++ [fragment]) = INCOMPLETE ->
      exists st',
        invoke_gate classify wrapped gate session fragment st
          = Some ({[ "output" := PyList [] ]}, st') /\
        forwarded st' = forwarded st /\
        buffers st' !! session
          = Some (default [] (buffers st !! session) ++ [fragment]).
Proof.
  destruct (build_pipeline_shape lang prompt index_name folder_path n)
    as (ep & em & cp & cm & E).
  cbv zeta in E. rewrite E.
  do 3 eexists. do 3 (split; [reflexivity|]).
  intros classify wrapped session fragment st V.
  unfold invoke_gate, end_gate_invoke. simpl. rewrite V.
  eexists. split; [reflexivity|]. simpl. split; [reflexivity|].
  apply lookup_insert_eq.
Qed.

(** *** The vector store of the pipeline *)

Lemma add_all_snoc {Tag : Type} store (vs : vector_state Tag) tags tag :
  add_all store vs (tags ++ [tag]) = snd (add store (add_all store vs tags) tag).
Proof. unfold add_all. now rewrite foldl_app. Qed.

(** With [auto_save] every insert leaves the medium equal to the index. *)
Lemma add_auto_save {Tag : Type} store (vs : vector_state Tag) tag :
  auto_save store = true ->
  let vs' := snd (add store vs tag) in
  persisted_tags vs' = index_tags vs' /\
  index_tags vs' = index_tags vs ++ [tag] /\
  tag ∈ persisted_tags vs'.
Proof.
  intros A. unfold add. rewrite A. simpl. repeat split.
  apply elem_of_app. right. now apply list_elem_of_singleton.
Qed.

(** C4.  [create_vector_store] constructs the store with [auto_save]
    enabled, and this is the store of the pipeline: every insert through it
    has reached the backing medium when [add] returns, after any sequence of
    earlier inserts, and nothing is left for [flush()]. *)
Theorem create_vector_store_auto_save (lang prompt : option string)
    (index_name folder_path : string) (n : oid) :
  (forall emb index folder k, exists vs k',
     create_vector_store emb index folder k = Ok (vs, k') /\
     auto_save vs = true /\ embeddings vs = emb) /\
  exists pipeline gate composer vs n',
    build_pipeline to_messages environ lang prompt index_name folder_path n
      = Ok (pipeline, n') /\
    bound_of pipeline = Some gate /\ bound_of gate = Some composer /\
    vector_store_of composer = Some vs /\
    auto_save vs = true /\
    forall (Tag : Type) (vs0 : vector_state Tag) (earlier : list Tag) (tag : Tag),
      let before := add_all vs vs0 earlier in
      let after := snd (add vs before tag) in
      tag ∈ persisted_tags after /\
      persisted_tags after = index_tags after /\
      flush after = after.
Proof.
  split.
  - intros emb index folder k. do 2 eexists.
    run_constructors. split; [reflexivity|]. split; reflexivity.
  - destruct (build_pipeline_shape lang prompt index_name folder_path n)
      as (ep & em & cp & cm & E).
    cbv zeta in E. rewrite E.
    do 5 eexists. do 5 (split; [reflexivity|]).
    intros Tag vs0 earlier tag before after.
    destruct (add_auto_save (Tag:=Tag)
                {| vector_store_id := (2 + n)%nat;
                   Quickstart.folder_path := folder_path;
                   Quickstart.index_name := index_name;
                   embeddings := {| embeddings_id := n;
                                    embeddings_provider := Some ep;
                                    embeddings_model := Some em |};
                   allow_dangerous_deserialization := true;
                   auto_save := true |} before tag eq_refl) as (P & I & M).
    fold after in P, I, M. split; [exact M|]. split; [exact P|].
    clearbody after. destruct after as [idx per]. simpl in P.
    unfold flush. simpl. now rewrite P.
Qed.

End Pipeline.

(** ** The history store contract and the replay of the demo *)

Section HistoryRoundTrip.
Context {Turn : Type}.
Implicit Types (σ : history_state Turn).

Lemma append_all_turns σ σ' session (ts : list Turn) :
  append_all σ session ts = Ok σ' ->
  default [] (turns σ' !! session) = default [] (turns σ !! session) ++ ts /\
  reachable σ' = reachable σ.
Proof.
  revert σ. induction ts as [|t ts IH]; simpl; intros σ.
  - intros [= <-]. now rewrite app_nil_r.
  - unfold mbind, result_bind.
    destruct (append σ session t) as [σ1|e] eqn:E; [|discriminate].
    intros A. destruct (IH _ A) as [L R].
    destruct (append_ok _ _ _ _ E) as (R1 & L1 & _).
    rewrite L, L1, R, R1. simpl. rewrite <- app_assoc. split; [reflexivity|].
    unfold append in E. now destruct (reachable σ).
Qed.

(** A read with a limit that covers the session returns all of it. *)
Lemma get_history_covering σ session (limit : nat) :
  reachable σ = true ->
  (length (default [] (turns σ !! session)) <= limit)%nat ->
  get_history σ session (Some limit) = Ok (default [] (turns σ !! session)).
Proof.
  intros R L. unfold get_history. rewrite R. simpl.
  replace (length (default [] (turns σ !! session)) - limit)%nat with 0%nat
    by lia.
  reflexivity.
Qed.

(** A bounded read returns the most recent turns. *)
Lemma get_history_recent σ session (limit : nat) (older recent : list Turn) :
  reachable σ = true ->
  default [] (turns σ !! session) = older ++ recent ->
  length recent = limit ->
  get_history σ session (Some limit) = Ok recent.
Proof.
  intros R E L. unfold get_history. rewrite R, E. simpl.
  rewrite length_app, L.
  replace (length older + limit - limit)%nat with (length older) by lia.
  now rewrite drop_app_length.
Qed.

End HistoryRoundTrip.

Section DemoStartup.
Context `{StrMethods}.
Variable stream :
  gmap oid (history_state message) -> Runnable -> string -> string ->
  list chunk * option exception * gmap oid (history_state message).
Variable to_messages : string -> list string.
Variable environ : gmap string string.

(** The demo reads the history through the store of its pipeline, with the
    limit 10, and replays what it reads before the first prompt. *)
Lemma demo_replays (session_id index folder : string)
    (μ : gmap oid (history_state message)) stdin (n : oid) nearly_history :
  (forall pipeline n' h,
     build_pipeline to_messages environ None None index folder n
       = Ok (pipeline, n') ->
     history_store_of pipeline = Some h ->
     get_session_history μ h session_id (Some 10%nat) = Ok nearly_history) ->
  exists pipeline n',
    build_pipeline to_messages environ None None index folder n
      = Ok (pipeline, n') /\
    demo _ stream get_session_history to_messages environ session_id index
      folder μ stdin n
    = (replay nearly_history
         ++ fst (demo_loop _ stream pipeline session_id μ stdin),
       snd (demo_loop _ stream pipeline session_id μ stdin)).
Proof.
  intros G.
  destruct (build_pipeline_shape to_messages environ None None index folder n)
    as (ep & em & cp & cm & E).
  cbv zeta in E. do 2 eexists. split; [exact E|].
  unfold demo. rewrite E. cbn [history_store_of]. cbv beta iota.
  rewrite (G _ _ _ E eq_refl).
  now destruct (demo_loop _ _ _ _ _ _).
Qed.

End DemoStartup.

(** C6.  Turns persisted for a session are read back, with a limit that
    covers them, in the order they were persisted and unchanged: they end the
    sequence read, and they are all of it when the session had no turns
    before.  A session without turns reads as the empty sequence, not as an
    error; and the demo, which reads with the limit 10 when it starts, shows
    the ten most recent of the persisted turns in that order before its
    first prompt, all of them when they are ten or fewer: a prompt and the
    content for a [HumanMessage], a bubble with the content for an
    [AIMessage], nothing for any other message. *)
Theorem history_round_trip :
  (forall (Turn : Type) (σ σ' : history_state Turn) session (ts : list Turn)
          (limit : nat),
     append_all σ session ts = Ok σ' -> reachable σ' = true ->
     (length ts <= limit)%nat ->
     exists older,
       get_history σ' session (Some limit) = Ok (older ++ ts) /\
       (default [] (turns σ !! session) = [] ->
          older = [] /\ get_history σ' session None = Ok ts)) /\
  (forall (Turn : Type) (σ : history_state Turn) session limit,
     reachable σ = true -> default [] (turns σ !! session) = [] ->
     get_history σ session limit = Ok []) /\
  (forall (SM : StrMethods) stream to_messages environ session_id index folder
          (μ : gmap oid (history_state message)) stdin (n : oid) σ' ts,
     append_all empty_store session_id ts = Ok σ' ->
     μ !! (1 + n)%nat = Some σ' ->
     let shown :=
       flat_map (fun turn => match turn with
                             | HumanMessage c => [PrintPrompt; PrintLine c]
                             | AIMessage c => [PrintBubble c]
                             | OtherMessage _ => []
                             end) in
     exists pipeline n',
       build_pipeline to_messages environ None None index folder n
         = Ok (pipeline, n') /\
       demo _ stream get_session_history to_messages environ session_id index
         folder μ stdin n
       = (shown (drop (length ts - 10) ts)
            ++ fst (demo_loop _ stream pipeline session_id μ stdin),
          snd (demo_loop _ stream pipeline session_id μ stdin)) /\
       ((length ts <= 10)%nat ->
        demo _ stream get_session_history to_messages environ session_id index
          folder μ stdin n
        = (shown ts ++ fst (demo_loop _ stream pipeline session_id μ stdin),
           snd (demo_loop _ stream pipeline session_id μ stdin)))).
Proof.
  split; [|split].
  - intros Turn σ σ' session ts limit A R L.
    destruct (append_all_turns _ _ _ _ A) as [T _].
    exists (drop (length (default [] (turns σ !! session)) + length ts - limit)
              (default [] (turns σ !! session))).
    split.
    + unfold get_history. rewrite R, T, length_app.
      now rewrite drop_app_le by lia.
    + intros E. rewrite E in *. simpl in T.
      split; [apply drop_nil|]. unfold get_history. now rewrite R, T.
  - intros Turn σ session limit R E. unfold get_history. rewrite R, E.
    now destruct limit as [k|]; [rewrite drop_nil|].
  - intros SM stream to_messages environ session_id index folder μ stdin n σ'
      ts A M shown.
    destruct (demo_replays stream to_messages environ session_id index folder
                μ stdin n (drop (length ts - 10) ts))
      as (pipeline & n' & B & D).
    { intros pipeline n' h B Hh.
      destruct (build_pipeline_shape to_messages environ None None index
                  folder n) as (ep & em & cp & cm & E).
      cbv zeta in E. rewrite E in B. injection B as <- <-.
      injection Hh as <-.
      destruct (append_all_turns _ _ _ _ A) as [T R].
      unfold empty_store in T, R. cbn [turns reachable] in T, R.
      rewrite lookup_empty in T. cbn [default app] in T.
      unfold get_session_history, state_of. cbn [history_store_id].
      match goal with
      | |- context [default empty_store ?x] =>
          replace x with (Some σ') by (symmetry; exact M)
      end.
      change (get_history σ' session_id (Some 10%nat)
              = Ok (drop (length ts - 10) ts)).
      unfold get_history. now rewrite R, T. }
    exists pipeline, n'. split; [exact B|]. split; [exact D|].
    intros L. rewrite D.
    now replace (length ts - 10)%nat with 0%nat by lia.
Qed.

(** C6, on two turns persisted in a fresh store and read with the limit of
    the demo. *)
Lemma history_round_trip_witness :
  (exists older,
     get_history
       {| reachable := true;
          turns := {[ "s1" := [HumanMessage "hello"; AIMessage "hi there"] ]} |}
       "s1" (Some 10%nat)
     = Ok (older ++ [HumanMessage "hello"; AIMessage "hi there"]) /\
     older = []) /\
  get_history (Turn:=message) empty_store "s1" (Some 10%nat) = Ok [] /\
  demo _ (fun w _ _ _ => ([], None, w)) get_session_history (fun _ => []) ∅
    "s1" "demo" DEF_FOLDER_PATH
    {[ 1%nat := {| reachable := true;
                   turns := {[ "s1" := [HumanMessage "hello";
                                        AIMessage "hi there"] ]} |} ]}
    [] 0%nat
  = ([PrintPrompt; PrintLine "hello"; PrintBubble "hi there";
      PrintPrompt; StdoutWrite erase_line], Ok []).
Proof.
  split; [|split].
  - assert (A : append_all empty_store "s1"
                  [HumanMessage "hello"; AIMessage "hi there"]
                = Ok {| reachable := true;
                        turns := {[ "s1" := [HumanMessage "hello";
                                             AIMessage "hi there"] ]} |})
      by (vm_compute; reflexivity).
    assert (L : (length [HumanMessage "hello"; AIMessage "hi there"] <= 10)%nat)
      by (simpl; lia).
    destruct (proj1 history_round_trip message empty_store _ "s1" _ 10%nat
                A eq_refl L) as (older & G & E).
    exists older. split; [exact G|]. now apply E.
  - exact (proj1 (proj2 history_round_trip) message empty_store "s1"
             (Some 10%nat) eq_refl eq_refl).
  - assert (A : append_all empty_store "s1"
                  [HumanMessage "hello"; AIMessage "hi there"]
                = Ok {| reachable := true;
                        turns := {[ "s1" := [HumanMessage "hello";
                                             AIMessage "hi there"] ]} |})
      by (vm_compute; reflexivity).
    destruct (proj2 (proj2 history_round_trip) ascii_str
                (fun w _ _ _ => ([], None, w)) (fun _ => []) ∅ "s1" "demo"
                DEF_FOLDER_PATH
                {[ 1%nat := {| reachable := true;
                               turns := {[ "s1" := [HumanMessage "hello";
                                                    AIMessage "hi there"] ]}
                            |} ]}
                [] 0%nat _ _ A (lookup_singleton_eq _ _))
      as (pipeline & n' & _ & D & _).
    rewrite D. reflexivity.
Defined.

(** ** cli/__init__.py: the loop of the demo *)

Section DemoLoop.
Context `{StrMethods}.
Variable World : Type.
Variable stream :
  World -> Runnable -> string -> string ->
  list chunk * option exception * World.

Lemma string_app_assoc (a b c : string) : (a +:+ b) +:+ c = a +:+ (b +:+ c).
Proof.
  induction a as [|x a IH]; [reflexivity|].
  rewrite !append_cons. now rewrite IH.
Qed.

Lemma string_app_empty_r (a : string) : a +:+ "" = a.
Proof.
  induction a as [|x a IH]; [reflexivity|].
  rewrite append_cons. now rewrite IH.
Qed.

(** One round of the loop on a chunk it can append. *)
Lemma consume_cons_textual (c : chunk) (rest : list chunk) failure buf :
  textual c ->
  consume (c :: rest) failure buf
  = if py_truthy (chunk_text c)
    then (LiveUpdate (buf +:+ chunk_str c)
            :: fst (consume rest failure (buf +:+ chunk_str c)),
          snd (consume rest failure (buf +:+ chunk_str c)))
    else consume rest failure buf.
Proof.
  unfold textual, chunk_str. simpl.
  destruct (chunk_text c) as [|t|items]; intros Hc.
  - reflexivity.
  - destruct (py_truthy (PyStr t)); [|reflexivity].
    now destruct (consume rest failure (buf +:+ t)).
  - destruct items; [reflexivity | discriminate].
Qed.

Lemma chunk_str_falsy (c : chunk) :
  textual c -> py_truthy (chunk_text c) = false -> chunk_str c = "".
Proof.
  unfold chunk_str, textual.
  destruct (chunk_text c) as [|[|]|]; try reflexivity. discriminate.
Qed.

Lemma chunk_str_truthy (c : chunk) :
  textual c -> str_truthy (chunk_str c) = py_truthy (chunk_text c).
Proof.
  unfold chunk_str, textual.
  destruct (chunk_text c) as [|t|items]; try reflexivity.
  now intros ->.
Qed.

Lemma updates_cons (c : chunk) (rest : list chunk) (buf : string) :
  updates buf (c :: rest)
  = (if str_truthy (chunk_str c) then [LiveUpdate (buf +:+ chunk_str c)]
     else []) ++ updates (buf +:+ chunk_str c) rest.
Proof.
  unfold updates. cbn [length seq flat_map]. f_equal.
  - cbn. now rewrite string_app_empty_r.
  - rewrite <- seq_shift, !flat_map_concat_map, map_map. f_equal.
    apply map_ext. intros k. cbn. destruct (rest !! k) as [c'|]; [|reflexivity].
    now rewrite string_app_assoc.
Qed.

(** On chunks it can append, and a stream that ends as [failure] tells, the
    loop shows [updates] and leaves the buffer followed by the joined
    texts. *)
Lemma consume_updates (chunks : list chunk) failure (buf : string) :
  Forall textual chunks ->
  consume chunks failure buf
  = (updates buf chunks,
     match failure with
     | Some e => Raise e
     | None => Ok (buf +:+ joined chunks)
     end).
Proof.
  intros F. revert buf. induction F as [|c rest Hc _ IH]; intros buf.
  - cbn. rewrite string_app_empty_r. now destruct failure.
  - rewrite (consume_cons_textual c rest failure buf Hc), updates_cons.
    rewrite (chunk_str_truthy c Hc). cbn [joined foldr].
    destruct (py_truthy (chunk_text c)) eqn:Tc.
    + rewrite IH. cbn. now rewrite string_app_assoc.
    + rewrite (chunk_str_falsy c Hc Tc), string_app_empty_r. apply IH.
Qed.

Lemma consume_app_textual (before after : list chunk) failure buf :
  Forall textual before ->
  consume (before ++ after) failure buf
  = (fst (consume before None buf)
       ++ fst (consume after failure (buf +:+ joined before)),
     snd (consume after failure (buf +:+ joined before))).
Proof.
  intros F. revert buf. induction F as [|c rest Hc Fr IH]; intros buf.
  - simpl. rewrite string_app_empty_r. now destruct (consume after failure buf).
  - rewrite <- app_comm_cons, !(consume_cons_textual c _ _ buf Hc).
    simpl joined.
    destruct (py_truthy (chunk_text c)) eqn:Tc.
    + rewrite IH. simpl. now rewrite string_app_assoc.
    + rewrite (chunk_str_falsy c Hc Tc). apply IH.
Qed.

(** C7 (as amended).  The loop of the demo ends at the end of the input, at
    an interrupt, at an empty line, and at a line that is ["exit"] once
    stripped and lowercased; it leaves the rest of the input unread and
    streams nothing.  On any other line it streams the pipeline on that line
    for the session.  When the stream ends without an exception and the text
    of every chunk is a [str] or falsy, it shows the texts as they
    accumulate, prints the joined text unless it is empty, and goes on with
    the next line; when the stream ends with an exception, the exception
    ends the demo after the updates, with no answer printed and no further
    line read; and the first chunk whose text is truthy and not a [str] ends
    the demo with [TypeError] in the same way. *)
Theorem demo_loop_iterations (pipeline : Runnable) (session_id : string)
    (w : World) (rest : list stdin_event) :
  demo_loop World stream pipeline session_id w []
    = ([PrintPrompt; StdoutWrite erase_line], Ok []) /\
  demo_loop World stream pipeline session_id w (KeyboardInterrupt :: rest)
    = ([PrintPrompt; StdoutWrite erase_line], Ok rest) /\
  (forall s, s = "" \/ lower (strip s) = "exit" ->
     demo_loop World stream pipeline session_id w (Line s :: rest)
       = ([PrintPrompt], Ok rest)) /\
  (forall s chunks w',
     s <> "" -> lower (strip s) <> "exit" ->
     stream w pipeline s session_id = (chunks, None, w') ->
     Forall textual chunks ->
     demo_loop World stream pipeline session_id w (Line s :: rest)
     = (PrintPrompt :: StatusSleep 3 :: StreamCall s session_id
          :: updates "" chunks
          ++ (if str_truthy (joined chunks) then [PrintBubble (joined chunks)]
              else [])
          ++ fst (demo_loop World stream pipeline session_id w' rest),
        snd (demo_loop World stream pipeline session_id w' rest))) /\
  (forall s chunks e w',
     s <> "" -> lower (strip s) <> "exit" ->
     stream w pipeline s session_id = (chunks, Some e, w') ->
     Forall textual chunks ->
     demo_loop World stream pipeline session_id w (Line s :: rest)
     = (PrintPrompt :: StatusSleep 3 :: StreamCall s session_id
          :: updates "" chunks,
        Raise e)) /\
  (forall s before c after failure w',
     s <> "" -> lower (strip s) <> "exit" ->
     stream w pipeline s session_id = (before ++ c :: after, failure, w') ->
     Forall textual before -> ~ textual c ->
     demo_loop World stream pipeline session_id w (Line s :: rest)
     = (PrintPrompt :: StatusSleep 3 :: StreamCall s session_id
          :: updates "" before,
        Raise (TypeError ("can only concatenate str (not " +:+ dquote
                          +:+ "list" +:+ dquote +:+ ") to str")))).
Proof.
  split; [reflexivity|]. split; [reflexivity|]. split; [|split; [|split]].
  - intros s [-> | E]; simpl.
    + destruct (String.eqb (lower (strip "")) "exit"); reflexivity.
    + apply String.eqb_eq in E. now rewrite E.
  - intros s chunks w' Ne Nx S F. simpl.
    apply String.eqb_neq in Nx. rewrite Nx.
    apply str_truthy_true in Ne. rewrite Ne, S.
    rewrite (consume_updates chunks None "" F).
    destruct (demo_loop World stream pipeline session_id w' rest) as [later r].
    reflexivity.
  - intros s chunks e w' Ne Nx S F. simpl.
    apply String.eqb_neq in Nx. rewrite Nx.
    apply str_truthy_true in Ne. rewrite Ne, S.
    now rewrite (consume_updates chunks (Some e) "" F).
  - intros s before c after failure w' Ne Nx S F N. simpl.
    apply String.eqb_neq in Nx. rewrite Nx.
    apply str_truthy_true in Ne. rewrite Ne, S.
    rewrite (consume_app_textual before (c :: after) failure "" F).
    rewrite (consume_updates before None "" F). cbn [fst snd consume].
    unfold textual in N.
    destruct (chunk_text c) as [|t|[|x items]]; simpl in *;
      try (now destruct N).
    now rewrite app_nil_r.
Qed.

End DemoLoop.

(** C7, on a pipeline that echoes its input: the line ["hello"] is streamed
    and the loop goes on; ["  EXIT "] ends it. *)
Lemma demo_loop_iterations_witness :
  let echo := fun (w : unit) (_ : Runnable) (m _ : string) =>
                ([ChunkStr m; ChunkDict {[ "output" := PyList [] ]}],
                 @None exception, w) in
  let pipeline := StringSingleTurnChat 0%nat "zh" None None [] in
  demo_loop unit echo pipeline "s1" tt [Line "hello"; Line "  EXIT "; Line "x"]
    = ([PrintPrompt; StatusSleep 3; StreamCall "hello" "s1";
        LiveUpdate "hello"; PrintBubble "hello"; PrintPrompt],
       Ok [Line "x"]) /\
  demo_loop unit broken_stream pipeline "s1" tt [Line "hello"; Line "x"]
    = ([PrintPrompt; StatusSleep 3; StreamCall "hello" "s1";
        LiveUpdate "hello"], Raise StorageError) /\
  demo_loop unit echo pipeline "s1" tt [Line "  EXIT "; Line "x"]
    = ([PrintPrompt], Ok [Line "x"]).
Proof.
  intros echo pipeline. split; [|split].
  - rewrite (proj1 (proj2 (proj2 (proj2 (demo_loop_iterations unit echo
                                           pipeline "s1" tt
                                           [Line "  EXIT "; Line "x"]))))
               "hello"
               [ChunkStr "hello"; ChunkDict {[ "output" := PyList [] ]}] tt
               ltac:(discriminate) ltac:(vm_compute; discriminate) eq_refl
               ltac:(repeat constructor)).
    reflexivity.
  - rewrite (proj1 (proj2 (proj2 (proj2 (proj2 (demo_loop_iterations unit
                                           broken_stream pipeline "s1" tt
                                           [Line "x"])))))
               "hello" [ChunkStr "hello"] StorageError tt
               ltac:(discriminate) ltac:(vm_compute; discriminate) eq_refl
               ltac:(repeat constructor)).
    reflexivity.
  - refine (proj1 (proj2 (proj2 (demo_loop_iterations unit echo pipeline "s1" tt
                                   [Line "x"])))
              "  EXIT " _).
    right. reflexivity.
Defined.

(** C7 as it was stated fails on an empty line: it is neither ["exit"] nor
    the end of the input nor an interrupt, and the loop ends there, the next
    line unread and nothing streamed. *)
Lemma demo_loop_empty_line :
  let echo := fun (w : unit) (_ : Runnable) (m _ : string) =>
                ([ChunkStr m], @None exception, w) in
  let pipeline := StringSingleTurnChat 0%nat "zh" None None [] in
  lower (strip "") <> "exit" /\
  demo_loop unit echo pipeline "s1" tt [Line ""; Line "hello"]
    = ([PrintPrompt], Ok [Line "hello"]).
Proof. split; [discriminate | reflexivity]. Qed.

(** ** The pipeline of the demo, at concrete inputs *)

(** The scenario of the specification: ["Hel"], then ["lo there"], for one
    session.  The first invocation returns the default; the wrapped pipeline
    is called once, with the joined input. *)
Example end_gate_two_fragments :
  let d : gmap string pyvalue := {[ "output" := PyList [] ]} in
  let st0 := {| buffers := ∅; forwarded := [] |} in
  let '(r1, st1) := end_gate_invoke two_fragments echo_output d "s1" "Hel" st0 in
  let '(r2, st2) :=
    end_gate_invoke two_fragments echo_output d "s1" "lo there" st1 in
  r1 = d /\ forwarded st1 = [] /\
  r2 = echo_output "Hello there" /\ forwarded st2 = ["Hello there"] /\
  buffers st2 !! "s1" = None.
Proof. vm_compute. repeat split. Qed.



(** C2, on the pipeline of the demo and the first fragment of the scenario
    above. *)
Lemma build_pipeline_gate_default_witness :
  exists pipeline gate n' st',
    build_pipeline (fun _ => []) ∅ None None "demo" DEF_FOLDER_PATH 0%nat
      = Ok (pipeline, n') /\
    bound_of pipeline = Some gate /\
    invoke_gate two_fragments echo_output gate "s1" "Hel"
      {| buffers := ∅; forwarded := [] |}
      = Some ({[ "output" := PyList [] ]}, st') /\
    forwarded st' = [] /\ buffers st' !! "s1" = Some ["Hel"].
Proof.
  destruct (build_pipeline_gate_default (fun _ => []) ∅ None None "demo"
              DEF_FOLDER_PATH 0%nat)
    as (pipeline & gate & n' & B & Bd & _ & Inv).
  assert (V : two_fragments
                (default [] (buffers {| buffers := ∅; forwarded := [] |}
                               !! "s1") ++ ["Hel"]) = INCOMPLETE)
    by (vm_compute; reflexivity).
  destruct (Inv two_fragments echo_output "s1" "Hel"
              {| buffers := ∅; forwarded := [] |} V)
    as (st' & I & F & Bf).
  exists pipeline, gate, n', st'. repeat split; assumption.
Defined.

(** C5, on the pipeline of the demo: a turn appended through the outermost
    wrapper, followed by another write, is read through the memory maker. *)
Lemma build_pipeline_shared_stores_witness :
  exists pipeline gate composer n' outer inner μ' μ'' read,
    build_pipeline (fun _ => []) ∅ None None "demo" DEF_FOLDER_PATH 0%nat
      = Ok (pipeline, n') /\
    bound_of pipeline = Some gate /\ bound_of gate = Some composer /\
    history_store_of pipeline = Some outer /\
    history_store_of composer = Some inner /\
    append_to ∅ outer "s1" (HumanMessage "hello") = Ok μ' /\
    append_many μ' [(inner, "s1", AIMessage "hi there")] = Ok μ'' /\
    get_session_history μ'' inner "s1" None = Ok read /\
    HumanMessage "hello" ∈ read.
Proof.
  destruct (build_pipeline_shared_stores (fun _ => []) ∅ None None "demo"
              DEF_FOLDER_PATH 0%nat)
    as (pipeline & gate & composer & n' & emb & n1 & hs & n2 & vs & B & Bp & Bg
        & _ & _ & Ho & Hi & _ & _ & V).
  assert (A : exists μ', append_to ∅ hs "s1" (HumanMessage "hello") = Ok μ').
  { unfold append_to, state_of. rewrite lookup_empty. simpl. eauto. }
  destruct A as [μ' A].
  assert (W : exists μ'', append_many μ' [(hs, "s1", AIMessage "hi there")]
                          = Ok μ'').
  { destruct (append_to_stored _ _ _ _ _ A) as [R _].
    destruct (append_reachable (state_of μ' hs) "s1" (AIMessage "hi there") R)
      as [σ E].
    simpl. unfold append_to, mbind, mret, result_bind, result_ret.
    rewrite E. eauto. }
  destruct W as [μ'' W].
  destruct (V message ∅ μ' μ'' hs hs "s1" (HumanMessage "hello")
              [(hs, "s1", AIMessage "hi there")] Ho Hi A W) as (read & G & I).
  exists pipeline, gate, composer, n', hs, hs, μ', μ'', read.
  repeat split; assumption.
Defined.

(** * Further properties of the code *)

(** ** utils.py: [flatten_exception_group] *)

(** Induction on an exception, with the property known for every member of
    a group. *)
Lemma exc_tree_nested_ind (P : exc_tree -> Prop) :
  (forall e, P (Single e)) ->
  (forall message exceptions,
     Forall P exceptions -> P (BaseExceptionGroup message exceptions)) ->
  forall exc, P exc.
Proof.
  intros HS HG. fix IH 1. intros [e | message exceptions].
  - apply HS.
  - apply HG. induction exceptions as [|x rest IHrest]; constructor.
    + apply IH.
    + exact IHrest.
Qed.

Lemma yield_for_no_group (exc : exc_tree) :
  Forall (fun y => is_group y = false) (yield_for exc).
Proof.
  induction exc as [e | message exceptions IH] using exc_tree_nested_ind.
  - simpl. repeat constructor.
  - simpl. induction IH as [|x rest Hx _ IHrest]; simpl.
    + constructor.
    + apply Forall_app. split; assumption.
Qed.

Lemma flat_map_yield_for_plain (ys : list exc_tree) :
  Forall (fun y => is_group y = false) ys -> flat_map yield_for ys = ys.
Proof.
  induction 1 as [|y rest Hy _ IH]; simpl; [reflexivity|].
  destruct y; [|discriminate]. simpl. now rewrite IH.
Qed.

Lemma flat_map_yield_for_no_group (exceptions : list exc_tree) :
  Forall (fun y => is_group y = false) (flat_map yield_for exceptions).
Proof.
  induction exceptions as [|x rest IH]; simpl; [constructor|].
  apply Forall_app. split; [apply yield_for_no_group | exact IH].
Qed.


(** Nesting is transparent: a group inside a group yields what its members
    would yield in its place, in the same order. *)
Theorem flatten_exception_group_nested
    (message inner_message : string) (before inner after : list exc_tree) :
  flatten_exception_group
    (BaseExceptionGroup message
       (before ++ [BaseExceptionGroup inner_message inner] ++ after))
  = flatten_exception_group
      (BaseExceptionGroup message (before ++ inner ++ after)).
Proof.
  simpl. f_equal. rewrite !flat_map_app. simpl.
  rewrite ?app_nil_r. reflexivity.
Qed.

(** Flattening is idempotent: the exceptions yielded for a group, put in a
    group again, are yielded unchanged.  In particular a group of plain
    exceptions yields exactly its members. *)
Theorem flatten_exception_group_idempotent
    (exc_group : exc_tree) (message : string) (ys : list exc_tree) :
  flatten_exception_group exc_group = Ok ys ->
  flatten_exception_group (BaseExceptionGroup message ys) = Ok ys.
Proof.
  intros E. destruct exc_group as [e | m exceptions]; [discriminate|].
  injection E as <-. simpl. f_equal.
  apply flat_map_yield_for_plain, flat_map_yield_for_no_group.
Qed.

Lemma flatten_exception_group_idempotent_witness :
  flatten_exception_group
    (BaseExceptionGroup "again"
       [Single (Exc ExceptionClass 1); Single (Exc BaseOnly 2);
        Single (Exc StopIterationClass 3)])
  = Ok [Single (Exc ExceptionClass 1); Single (Exc BaseOnly 2);
        Single (Exc StopIterationClass 3)].
Proof.
  apply (flatten_exception_group_idempotent
           (BaseExceptionGroup "outer"
              [Single (Exc ExceptionClass 1);
               BaseExceptionGroup "inner"
                 [Single (Exc BaseOnly 2); Single (Exc StopIterationClass 3)]])).
  reflexivity.
Defined.

Lemma yield_for_constructible (exc : exc_tree) :
  constructible exc = true -> yield_for exc <> [].
Proof.
  induction exc as [e | message exceptions IH] using exc_tree_nested_ind.
  - discriminate.
  - simpl. destruct exceptions as [|x rest]; [discriminate|].
    intros C. apply andb_true_iff in C as [Cx _].
    inversion IH as [|? ? Hx _]; subst. simpl.
    intros E. apply app_eq_nil in E as [E _]. now apply Hx.
Qed.

(** A group that Python lets one build yields at least one exception. *)
Theorem flatten_exception_group_nonempty
    (exc_group : exc_tree) (ys : list exc_tree) :
  constructible exc_group = true ->
  flatten_exception_group exc_group = Ok ys -> ys <> [].
Proof.
  intros C E. destruct exc_group as [e | message exceptions]; [discriminate|].
  injection E as <-.
  change (yield_for (BaseExceptionGroup message exceptions) <> []).
  now apply yield_for_constructible.
Qed.

Lemma flatten_exception_group_nonempty_witness :
  flatten_exception_group
    (BaseExceptionGroup "outer"
       [BaseExceptionGroup "inner" [Single (Exc ExceptionClass 1)]])
  = Ok [Single (Exc ExceptionClass 1)] /\
  [Single (Exc ExceptionClass 1)] <> [].
Proof.
  split; [reflexivity|].
  apply (flatten_exception_group_nonempty
           (BaseExceptionGroup "outer"
              [BaseExceptionGroup "inner" [Single (Exc ExceptionClass 1)]])).
  - reflexivity.
  - reflexivity.
Defined.

(** ** utils.py: [remove_not_given_params] *)

Section RemoveNotGiven.
Context {A : Type}.
Implicit Types (kwargs : gmap string (kwarg A)).

Lemma is_NotGiven_false (value : kwarg A) :
  is_NotGiven value = false <-> value <> NotGivenValue.
Proof. destruct value; simpl; split; congruence. Qed.

Lemma lookup_remove_not_given kwargs (key : string) :
  remove_not_given_params kwargs !! key
  = match kwargs !! key with
    | Some (GivenValue a) => Some (GivenValue a)
    | Some NotGivenValue | None => None
    end.
Proof.
  unfold remove_not_given_params. rewrite map_lookup_filter.
  now destruct (kwargs !! key) as [[|a]|].
Qed.

(** The result holds exactly the arguments that were given, each under its
    name and with its value: no [NotGiven] is left, no name is added and no
    value is changed. *)
Theorem remove_not_given_params_items kwargs (key : string)
    (value : kwarg A) :
  remove_not_given_params kwargs !! key = Some value <->
  kwargs !! key = Some value /\ value <> NotGivenValue.
Proof.
  rewrite lookup_remove_not_given.
  destruct (kwargs !! key) as [[|a]|]; split.
  - discriminate.
  - intros [[= <-] N]. congruence.
  - intros [= <-]. split; [reflexivity | discriminate].
  - intros [[= <-] _]. reflexivity.
  - discriminate.
  - intros [[=] _].
Qed.

(** Removing twice is removing once, and a dictionary without [NotGiven]
    values comes back unchanged. *)
Theorem remove_not_given_params_idempotent kwargs :
  remove_not_given_params (remove_not_given_params kwargs)
    = remove_not_given_params kwargs /\
  ((forall key, kwargs !! key <> Some NotGivenValue) ->
     remove_not_given_params kwargs = kwargs).
Proof.
  split.
  - apply map_eq. intros key. rewrite !lookup_remove_not_given.
    now destruct (kwargs !! key) as [[|a]|].
  - intros N. apply map_eq. intros key.
    rewrite lookup_remove_not_given. specialize (N key).
    now destruct (kwargs !! key) as [[|a]|].
Qed.

(** Setting an argument before the call: a given value is set in the
    result, and [NotGiven] removes the name from it, whatever value the name
    had before. *)
Theorem remove_not_given_params_insert kwargs (key : string) (a : A) :
  remove_not_given_params (<[key := GivenValue a]> kwargs)
    = <[key := GivenValue a]> (remove_not_given_params kwargs) /\
  remove_not_given_params (<[key := NotGivenValue]> kwargs)
    = delete key (remove_not_given_params kwargs).
Proof.
  split; apply map_eq; intros k; rewrite !lookup_remove_not_given.
  - destruct (decide (key = k)) as [->|N].
    + now rewrite !lookup_insert_eq.
    + rewrite !lookup_insert_ne by exact N.
      now rewrite lookup_remove_not_given.
  - destruct (decide (key = k)) as [->|N].
    + now rewrite lookup_insert_eq, lookup_delete_eq.
    + rewrite lookup_insert_ne, lookup_delete_ne by exact N.
      now rewrite lookup_remove_not_given.
Qed.

End RemoveNotGiven.

Lemma remove_not_given_params_idempotent_witness :
  remove_not_given_params
    ({[ "model" := GivenValue 1; "stream" := GivenValue 2 ]}
       : gmap string (kwarg Z))
  = {[ "model" := GivenValue 1; "stream" := GivenValue 2 ]}.
Proof.
  apply (proj2 (remove_not_given_params_idempotent (A:=Z) _)).
  intros key E. apply lookup_insert_Some in E as [[_ E] | [_ E]]; [discriminate|].
  apply lookup_singleton_Some in E as [_ E]. discriminate.
Defined.

(** ** utils.py: more on [sync_ctx_manager_wrapper] *)

Section CtxManagerEdges.
Context {T R : Type}.




End CtxManagerEdges.



(** ** utils.py: when the environment factories raise *)

Section FactoriesRaise.
Context `{StrMethods}.

Lemma from_default_raise key default error_message (e : exception) :
  from_default key default error_message = Raise e <->
  default = NOT_GIVEN /\ e = ValueError (error_text key error_message).
Proof.
  unfold from_default, error_text.
  destruct default as [| |d].
  - destruct error_message as [m|]; [destruct (str_truthy m)|]; split;
      try (intros [= <-]; auto); intros [_ ->]; reflexivity.
  - split; [discriminate | intros [[=] _]].
  - split; [discriminate | intros [[=] _]].
Qed.

(** The two factories fail together and in one way only: they raise exactly
    when no default was given and the variable is unset or holds no value of
    the form [A/B], and what they raise is the [ValueError] with
    [error_message], or with the "Did not find" text when there is none.
    With a default, or with a well-formed value, neither ever raises. *)
Theorem factories_raise_iff key default error_message
    (environ : gmap string string) (e : exception) :
  let fails :=
    default = NOT_GIVEN /\
    (forall v, environ !! key = Some v -> forall a b, ~ exact_form v a b) /\
    e = ValueError (error_text key error_message) in
  (get_provider_from_env key default error_message environ = Raise e
     <-> fails) /\
  (get_model_from_env key default error_message environ = Raise e
     <-> fails).
Proof.
  intros fails. subst fails.
  unfold get_provider_from_env, get_model_from_env.
  destruct (environ !! key) as [v|] eqn:Ev.
  - destruct (re_fullmatch v) as [[g1 g2]|] eqn:Em.
    + apply re_fullmatch_some in Em.
      split; (split; [discriminate|]);
        intros (_ & N & _); destruct (N v eq_refl g1 g2 Em).
    + assert (N : forall v', Some v = Some v' -> forall a b, ~ exact_form v' a b).
      { intros v' [= <-] a b F. apply re_fullmatch_exact in F. congruence. }
      rewrite from_default_raise. split; tauto.
  - rewrite from_default_raise.
    split; (split; [intros [D E]; repeat split; [exact D | discriminate | exact E]
                   | tauto]).
Qed.

End FactoriesRaise.

(** The factories, on an unset variable without a default. *)
Lemma factories_raise_iff_witness :
  get_provider_from_env "AGENT_MODEL" NOT_GIVEN (Some "set AGENT_MODEL") ∅
    = Raise (ValueError "set AGENT_MODEL") /\
  get_model_from_env "AGENT_MODEL" NOT_GIVEN (Some "set AGENT_MODEL") ∅
    = Raise (ValueError "set AGENT_MODEL").
Proof.
  assert (N : forall v, (∅ : gmap string string) !! "AGENT_MODEL" = Some v ->
                        forall a b, ~ exact_form v a b).
  { intros v E. rewrite lookup_empty in E. discriminate. }
  split.
  - apply (proj1 (factories_raise_iff "AGENT_MODEL" NOT_GIVEN
                    (Some "set AGENT_MODEL") ∅ (ValueError "set AGENT_MODEL"))).
    split; [reflexivity|]. split; [exact N | reflexivity].
  - apply (proj2 (factories_raise_iff "AGENT_MODEL" NOT_GIVEN
                    (Some "set AGENT_MODEL") ∅ (ValueError "set AGENT_MODEL"))).
    split; [reflexivity|]. split; [exact N | reflexivity].
Defined.

(** ** utils.py: more on [format_datetime_relative] *)

(** The call raises exactly when [now] falls on [date.min], whatever
    [old_time] is: the day before [now] is computed first. *)
Theorem format_datetime_relative_raises `{Strftime}
    (clock old_time now : datetime) :
  valid_date (date_of now) ->
  ((exists e, format_datetime_relative clock old_time (Some now) = Raise e)
   <-> date_of now = date_min).
Proof.
  intros V. rewrite <- (date_sub_one_day_raises _ V).
  unfold format_datetime_relative.
  destruct (date_sub_one_day (date_of now)) as [y|e].
  - split; intros [e E]; [|discriminate].
    destruct (date_eqb _ _); [discriminate|].
    destruct (date_eqb _ _); discriminate.
  - split; eauto.
Qed.

Lemma format_datetime_relative_raises_witness :
  (exists e, format_datetime_relative (mkdatetime 2000 1 1 0 0 0 0)
               (mkdatetime 2024 3 1 9 5 0 0)
               (Some (mkdatetime 1 1 1 12 0 0 0)) = Raise e)
  <-> date_of (mkdatetime 1 1 1 12 0 0 0) = date_min.
Proof.
  apply format_datetime_relative_raises.
  unfold valid_date; simpl. lia.
Defined.

Section Formats.
Context `{Strftime}.

Lemma Ok_inj {A : Type} (a b : A) : Ok a = Ok b -> a = b.
Proof. now intros [= ->]. Qed.

Lemma append_inv_head (p a b : string) : p +:+ a = p +:+ b -> a = b.
Proof.
  induction p as [|c p IH]; [easy|].
  rewrite !append_cons. intros [= E]. now apply IH.
Qed.

Lemma digit_mod (a b : Z) : digit a = digit b -> a mod 10 = b mod 10.
Proof.
  unfold digit. intros E. apply (f_equal nat_of_ascii) in E.
  pose proof (Z.mod_pos_bound a 10 ltac:(lia)).
  pose proof (Z.mod_pos_bound b 10 ltac:(lia)).
  rewrite !nat_ascii_embedding in E by lia. lia.
Qed.

Lemma pad2_inj (a b : Z) :
  0 <= a <= 99 -> 0 <= b <= 99 -> pad2 a = pad2 b -> a = b.
Proof.
  intros Ha Hb E. unfold pad2 in E. injection E as E1 E2.
  apply digit_mod in E1, E2.
  Z.to_euclidean_division_equations. lia.
Qed.

Lemma pad4_inj (a b : Z) :
  0 <= a <= 9999 -> 0 <= b <= 9999 -> pad4 a = pad4 b -> a = b.
Proof.
  intros Ha Hb E. unfold pad4, pad2 in E. injection E as E1 E2 E3 E4.
  apply digit_mod in E1, E2, E3, E4.
  Z.to_euclidean_division_equations. lia.
Qed.

Lemma strftime_HM_inj (t u : datetime) :
  valid_datetime t -> valid_datetime u -> strftime_HM t = strftime_HM u ->
  dt_hour t = dt_hour u /\ dt_minute t = dt_minute u.
Proof.
  intros (_ & Ht & Mt & _) (_ & Hu & Mu & _) E.
  cbv [strftime_HM pad2 String.append] in E. injection E as E1 E2 E3 E4.
  split; apply pad2_inj; try lia; unfold pad2; congruence.
Qed.

Lemma padded_Ymd_inj (t u : datetime) :
  valid_datetime t -> valid_datetime u -> padded_Ymd t = padded_Ymd u ->
  date_of t = date_of u.
Proof.
  intros ((Yt & Mt & Dt) & _) ((Yu & Mu & Du) & _) E. simpl in *.
  cbv [padded_Ymd pad4 pad2 String.append] in E.
  injection E as E1 E2 E3 E4 E5 E6 E7 E8.
  pose proof (days_in_month_bounds (dt_year t) (dt_month t) Mt).
  pose proof (days_in_month_bounds (dt_year u) (dt_month u) Mu).
  unfold date_of. f_equal.
  - apply pad4_inj; try lia. unfold pad4, pad2. congruence.
  - apply pad2_inj; try lia. unfold pad2. congruence.
  - apply pad2_inj; try lia. unfold pad2. congruence.
Qed.

Lemma strftime_Ymd_four (t : datetime) :
  valid_datetime t -> 1000 <= dt_year t -> strftime_Ymd t = padded_Ymd t.
Proof.
  intros ((Yt & _) & _) Y. simpl in Yt. unfold strftime_Ymd, padded_Ymd.
  now rewrite format_Y_four by lia.
Qed.

(** From year 1000 on the text is unambiguous.  For a given [now], two valid
    datetimes of the years 1000 to 9999 that are formatted to the same text
    fall on the same date and have the same hour and minute: the three
    shapes differ in length, and each shape tells the date and the time. *)
Theorem format_datetime_relative_unambiguous
    (clock t u now : datetime) (text : string) :
  valid_datetime t -> valid_datetime u ->
  1000 <= dt_year t -> 1000 <= dt_year u ->
  format_datetime_relative clock t (Some now) = Ok text ->
  format_datetime_relative clock u (Some now) = Ok text ->
  date_of t = date_of u /\ dt_hour t = dt_hour u /\ dt_minute t = dt_minute u.
Proof.
  intros Vt Vu Yt Yu. unfold format_datetime_relative.
  rewrite (strftime_Ymd_four t Vt Yt), (strftime_Ymd_four u Vu Yu).
  destruct (date_sub_one_day (date_of now)) as [y|e]; [|discriminate].
  destruct (date_eqb (date_of t) (date_of now)) eqn:T1;
    [|destruct (date_eqb (date_of t) y) eqn:T2];
    (destruct (date_eqb (date_of u) (date_of now)) eqn:U1;
      [|destruct (date_eqb (date_of u) y) eqn:U2]);
    intros [= <-] E; apply Ok_inj in E;
    try (apply (f_equal String.length) in E;
         cbv [strftime_HM padded_Ymd pad4 pad2 String.append String.length]
           in E;
         discriminate).
  - apply date_eqb_eq in T1, U1. split; [congruence|].
    symmetry in E. now apply strftime_HM_inj.
  - apply date_eqb_eq in T2, U2. split; [congruence|].
    apply append_inv_head in E. symmetry in E. now apply strftime_HM_inj.
  - assert (Ed : padded_Ymd u = padded_Ymd t /\ strftime_HM u = strftime_HM t).
    { revert E.
      cbv [strftime_HM padded_Ymd pad4 pad2 String.append].
      intros E. injection E as -> -> -> -> -> -> -> -> -> -> -> ->.
      split; reflexivity. }
    destruct Ed as [Ed Eh]. split.
    + symmetry. now apply padded_Ymd_inj.
    + symmetry in Eh. now apply strftime_HM_inj.
Qed.

End Formats.

Lemma format_datetime_relative_unambiguous_witness :
  date_of (mkdatetime 2024 3 1 9 5 0 0) = date_of (mkdatetime 2024 3 1 9 5 59 0)
  /\ dt_hour (mkdatetime 2024 3 1 9 5 0 0) = dt_hour (mkdatetime 2024 3 1 9 5 59 0)
  /\ dt_minute (mkdatetime 2024 3 1 9 5 0 0)
     = dt_minute (mkdatetime 2024 3 1 9 5 59 0).
Proof.
  assert (V : forall sec, 0 <= sec <= 59 ->
                valid_datetime (mkdatetime 2024 3 1 9 5 sec 0)).
  { intros sec Hs. unfold valid_datetime, valid_date; simpl. lia. }
  apply (format_datetime_relative_unambiguous (mkdatetime 2000 1 1 0 0 0 0)
           (mkdatetime 2024 3 1 9 5 0 0) (mkdatetime 2024 3 1 9 5 59 0)
           (mkdatetime 2024 3 2 8 0 0 0) "Yesterday 09:05"
           (V 0 ltac:(lia)) (V 59 ltac:(lia))
           ltac:(simpl; lia) ltac:(simpl; lia)).
  - reflexivity.
  - reflexivity.
Defined.

(** ** quickstart.py: what the constructors read *)

Section Settings.
Context `{StrMethods}.
Variable to_messages : string -> list string.
Variable environ : gmap string string.

Lemma provider_with_default key d error_message :
  exists p,
    get_provider_from_env key (DefaultStr d) error_message environ
      = Ok (Some p) /\
    (forall v a b, environ !! key = Some v -> exact_form v a b ->
       p = lower a) /\
    ((forall v, environ !! key = Some v -> forall a b, ~ exact_form v a b) ->
       p = d).
Proof.
  unfold get_provider_from_env.
  destruct (environ !! key) as [v|].
  - destruct (re_fullmatch v) as [[g1 g2]|] eqn:E.
    + exists (lower g1). split; [reflexivity|]. split.
      * intros v' a b [= <-] F. apply re_fullmatch_exact in F.
        rewrite E in F. now injection F as <- <-.
      * intros N. destruct (N v eq_refl g1 g2). now apply re_fullmatch_some.
    + exists d. split; [reflexivity|]. split; [|reflexivity].
      intros v' a b [= <-] F. apply re_fullmatch_exact in F. congruence.
  - exists d. split; [reflexivity|]. split; [discriminate | reflexivity].
Qed.

Lemma model_with_default key d error_message :
  exists m,
    get_model_from_env key (DefaultStr d) error_message environ
      = Ok (Some m) /\
    (forall v a b, environ !! key = Some v -> exact_form v a b ->
       m = lower b) /\
    ((forall v, environ !! key = Some v -> forall a b, ~ exact_form v a b) ->
       m = d).
Proof.
  unfold get_model_from_env.
  destruct (environ !! key) as [v|].
  - destruct (re_fullmatch v) as [[g1 g2]|] eqn:E.
    + exists (lower g2). split; [reflexivity|]. split.
      * intros v' a b [= <-] F. apply re_fullmatch_exact in F.
        rewrite E in F. now injection F as <- <-.
      * intros N. destruct (N v eq_refl g1 g2). now apply re_fullmatch_some.
    + exists d. split; [reflexivity|]. split; [|reflexivity].
      intros v' a b [= <-] F. apply re_fullmatch_exact in F. congruence.
  - exists d. split; [reflexivity|]. split; [discriminate | reflexivity].
Qed.

(** The provider and the model that [create_embeddings] gives to
    [OpenAIEmbeddings], when it returns.  A well-formed
    [EMBEDDINGS_MODEL=A/B] decides the provider and the model, lowercased,
    whatever the arguments are; the arguments count only when the variable
    is unset or malformed, and an argument that is missing or empty gives
    ["openai"] and ["text-embedding-ada-002"]. *)
Theorem create_embeddings_settings (provider model : option string)
    (n n' : oid) (emb : OpenAIEmbeddings) :
  create_embeddings environ provider model n = Ok (emb, n') ->
  (forall v a b, environ !! "EMBEDDINGS_MODEL" = Some v -> exact_form v a b ->
     embeddings_provider emb = Some (lower a) /\
     embeddings_model emb = Some (lower b)) /\
  ((forall v, environ !! "EMBEDDINGS_MODEL" = Some v ->
              forall a b, ~ exact_form v a b) ->
     embeddings_provider emb
       = Some (match provider with
               | Some (String c p) => String c p
               | _ => "openai"
               end) /\
     embeddings_model emb
       = Some (match model with
               | Some (String c m) => String c m
               | _ => "text-embedding-ada-002"
               end)).
Proof.
  destruct (provider_with_default "EMBEDDINGS_MODEL" (str_or provider "openai")
              None) as (p & Ep & Pw & Pd).
  destruct (model_with_default "EMBEDDINGS_MODEL"
              (str_or model "text-embedding-ada-002") None)
    as (m & Em & Mw & Md).
  run_constructors. rewrite Ep, Em. intros [= <- _]. simpl. split.
  - intros v a b Ev F. now rewrite (Pw v a b Ev F), (Mw v a b Ev F).
  - intros N. rewrite (Pd N), (Md N).
    destruct provider as [[|]|], model as [[|]|]; split; reflexivity.
Qed.

(** [create_chat] reads [CHAT_MODEL] and [create_agent] reads [AGENT_MODEL],
    in the same way: in the arguments that either gives to the class of its
    agent, when it returns, a well-formed value [A/B] of its variable
    decides the provider and the model whatever the arguments of the call
    are, and otherwise a missing or empty argument gives ["openai"] and
    ["gpt-4.1"].  [create_agent] without [tools] gives the empty list. *)
Theorem create_chat_agent_settings (lang prompt : option string)
    (tools : option (list BaseTool)) (provider model : option string)
    (n : oid) :
  let reads key agent :=
    exists l p m,
      agent_settings agent = Some (l, Some p, Some m) /\
      (forall v a b, environ !! key = Some v -> exact_form v a b ->
         p = lower a /\ m = lower b) /\
      ((forall v, environ !! key = Some v -> forall a b, ~ exact_form v a b) ->
         p = match provider with
             | Some (String c s) => String c s
             | _ => "openai"
             end /\
         m = match model with
             | Some (String c s) => String c s
             | _ => "gpt-4.1"
             end) in
  (forall chat n',
     create_chat to_messages environ lang prompt provider model n
       = Ok (chat, n') -> reads "CHAT_MODEL" chat) /\
  (forall agent n',
     create_agent to_messages environ lang prompt tools provider model n
       = Ok (agent, n') ->
     reads "AGENT_MODEL" agent /\
     tools_of agent = Some (match tools with Some t => t | None => [] end)).
Proof.
  intros reads. subst reads. split.
  - destruct (provider_with_default "CHAT_MODEL" (str_or provider "openai")
                None) as (p & Ep & Pw & Pd).
    destruct (model_with_default "CHAT_MODEL" (str_or model "gpt-4.1") None)
      as (m & Em & Mw & Md).
    intros chat n'. run_constructors. rewrite Ep, Em. intros [= <- _].
    exists (resolve_lang environ lang), p, m. split; [reflexivity|]. split.
    + intros v a b Ev F. now rewrite (Pw v a b Ev F), (Mw v a b Ev F).
    + intros N. rewrite (Pd N), (Md N).
      destruct provider as [[|]|], model as [[|]|]; split; reflexivity.
  - destruct (provider_with_default "AGENT_MODEL" (str_or provider "openai")
                None) as (p & Ep & Pw & Pd).
    destruct (model_with_default "AGENT_MODEL" (str_or model "gpt-4.1") None)
      as (m & Em & Mw & Md).
    intros agent n'. run_constructors. rewrite Ep, Em. intros [= <- _]. split.
    + exists (resolve_lang environ lang), p, m. split; [reflexivity|]. split.
      * intros v a b Ev F. now rewrite (Pw v a b Ev F), (Mw v a b Ev F).
      * intros N. rewrite (Pd N), (Md N).
        destruct provider as [[|]|], model as [[|]|]; split; reflexivity.
    + simpl. now destruct tools as [[|t ts]|].
Qed.

End Settings.

(** [create_embeddings] under [EMBEDDINGS_MODEL=OpenAI/Text-Embedding-3-Small],
    with arguments that the variable overrides. *)
Lemma create_embeddings_settings_witness :
  let emb := {| embeddings_id := 0%nat;
                embeddings_provider := Some "openai";
                embeddings_model := Some "text-embedding-3-small" |} in
  create_embeddings {[ "EMBEDDINGS_MODEL" := "OpenAI/Text-Embedding-3-Small" ]}
    (Some "azure") (Some "ada") 0%nat = Ok (emb, 1%nat) /\
  embeddings_provider emb = Some (lower "OpenAI") /\
  embeddings_model emb = Some (lower "Text-Embedding-3-Small").
Proof.
  intros emb. split; [reflexivity|].
  assert (F : exact_form "OpenAI/Text-Embedding-3-Small" "OpenAI"
                "Text-Embedding-3-Small")
    by (unfold exact_form; repeat split; try reflexivity; discriminate).
  exact (proj1 (create_embeddings_settings
                  {[ "EMBEDDINGS_MODEL" := "OpenAI/Text-Embedding-3-Small" ]}
                  (Some "azure") (Some "ada") 0%nat 1%nat emb eq_refl)
           "OpenAI/Text-Embedding-3-Small" "OpenAI" "Text-Embedding-3-Small"
           eq_refl F).
Defined.

(** [create_agent] with no variable set and an empty provider. *)
Lemma create_chat_agent_settings_witness :
  let agent := AgentBase 0%nat "zh" (Some "openai") (Some "gpt-4o")
                 (agent_contexts (fun _ => []) "zh" None) [] in
  create_agent (fun _ => []) ∅ None None None (Some "") (Some "gpt-4o") 0%nat
    = Ok (agent, 1%nat) /\
  tools_of agent = Some [] /\
  exists l p m,
    agent_settings agent = Some (l, Some p, Some m) /\
    p = "openai" /\ m = "gpt-4o".
Proof.
  intros agent.
  assert (E : create_agent (fun _ => []) ∅ None None None (Some "")
                (Some "gpt-4o") 0%nat = Ok (agent, 1%nat))
    by (vm_compute; reflexivity).
  split; [exact E|].
  destruct (proj2 (create_chat_agent_settings (fun _ => []) ∅ None None None
                     (Some "") (Some "gpt-4o") 0%nat) agent 1%nat E)
    as ((l & p & m & S & _ & D) & T).
  split; [exact T|]. exists l, p, m. split; [exact S|].
  apply D. intros v Ev. rewrite lookup_empty in Ev. discriminate.
Defined.

(** ** quickstart.py: the objects of a pipeline *)

Section Objects.
Context `{StrMethods}.
Variable to_messages : string -> list string.
Variable environ : gmap string string.

Lemma string_length_append (a b : string) :
  String.length (a +:+ b) = (String.length a + String.length b)%nat.
Proof.
  induction a as [|c a IH]; [reflexivity|].
  rewrite append_cons. simpl. now rewrite IH.
Qed.

Lemma append_inv_tail (a b t : string) : a +:+ t = b +:+ t -> a = b.
Proof.
  revert b. induction a as [|c a IH]; intros [|d b] E.
  - reflexivity.
  - apply (f_equal String.length) in E.
    rewrite !string_length_append in E. simpl in E. lia.
  - apply (f_equal String.length) in E.
    rewrite !string_length_append in E. simpl in E. lia.
  - rewrite !append_cons in E. injection E as -> E. f_equal. now apply IH.
Qed.

(** In one folder, two history stores have the same database URL only when
    they were created for the same index name.  Across folders this fails:
    the folder and the index name are joined by a ["/"] that either may
    contain. *)
Theorem create_history_store_db_url (folder index1 index2 : string)
    (n1 n2 : oid) :
  (forall h1 k1 h2 k2,
     create_history_store index1 folder n1 = Ok (h1, k1) ->
     create_history_store index2 folder n2 = Ok (h2, k2) ->
     db_url h1 = db_url h2 -> index1 = index2) /\
  (exists h1 k1 h2 k2,
     create_history_store "c" "a/b" n1 = Ok (h1, k1) /\
     create_history_store "b/c" "a" n2 = Ok (h2, k2) /\
     db_url h1 = db_url h2).
Proof.
  split.
  - intros h1 k1 h2 k2. run_constructors. intros [= <- _] [= <- _]. simpl.
    intros E. apply append_inv_head in E. apply append_inv_head in E.
    apply append_inv_head in E. now apply append_inv_tail in E.
  - run_constructors. do 4 eexists. split; [reflexivity|].
    split; reflexivity.
Qed.

End Objects.

(** Two index names in one folder: the URLs differ. *)
Lemma create_history_store_db_url_witness :
  "sqlite:///.cache/demo.sqlite" <> "sqlite:///.cache/test.sqlite".
Proof.
  intros E.
  assert (I : "demo" = "test").
  { refine (proj1 (create_history_store_db_url ".cache" "demo" "test"
                     0%nat 5%nat)
              {| history_store_id := 0%nat;
                 db_url := "sqlite:///.cache/demo.sqlite" |} 1%nat
              {| history_store_id := 5%nat;
                 db_url := "sqlite:///.cache/test.sqlite" |} 6%nat
              eq_refl eq_refl E). }
  discriminate I.
Defined.

(** ** cli/__init__.py: the chunks of a stream *)

Section Chunks.
Context `{StrMethods}.

Lemma joined_no_truthy (chunks : list chunk) :
  Forall textual chunks -> truthy_chunks chunks = 0%nat -> joined chunks = "".
Proof.
  induction 1 as [|c rest Hc _ IH]; [reflexivity|].
  unfold truthy_chunks. simpl.
  destruct (py_truthy (chunk_text c)) eqn:Tc; [discriminate|].
  intros J. rewrite (chunk_str_falsy c Hc Tc). now apply IH.
Qed.

(** The loop joins the texts.  On chunks that are texts or falsy, and a
    stream that ends without an exception, [text_buffer] ends as what it was
    followed by the texts of the chunks in order; the display is updated once
    per truthy chunk and never otherwise touched; and the last update shows
    the final text. *)
Theorem consume_joins (chunks : list chunk) (text_buffer : string) :
  Forall textual chunks ->
  let shown := fst (consume chunks None text_buffer) in
  snd (consume chunks None text_buffer) = Ok (text_buffer +:+ joined chunks) /\
  length shown = truthy_chunks chunks /\
  (forall ev, ev ∈ shown -> exists t, ev = LiveUpdate t) /\
  (shown <> [] ->
   last shown = Some (LiveUpdate (text_buffer +:+ joined chunks))).
Proof.
  intros F. revert text_buffer.
  induction F as [|c rest Hc Fr IH]; intros buf.
  - simpl. rewrite string_app_empty_r. repeat split; try reflexivity.
    + intros ev Hev. now apply elem_of_nil in Hev.
    + congruence.
  - cbv zeta. rewrite (consume_cons_textual c rest None buf Hc).
    unfold truthy_chunks. simpl omap. simpl joined.
    destruct (py_truthy (chunk_text c)) eqn:Tc.
    + destruct (IH (buf +:+ chunk_str c)) as (S & L & E & Z).
      rewrite string_app_assoc in S, Z. simpl. repeat split.
      * exact S.
      * f_equal. exact L.
      * intros ev Hev. apply elem_of_cons in Hev as [-> | Hev]; eauto.
      * intros _.
        destruct (fst (consume rest None (buf +:+ chunk_str c))) as [|x l] eqn:El.
        -- simpl. symmetry in L. simpl in L.
           now rewrite (joined_no_truthy rest Fr L), string_app_empty_r.
        -- rewrite last_cons. rewrite Z by discriminate. reflexivity.
    + rewrite (chunk_str_falsy c Hc Tc). apply IH.
Qed.

End Chunks.

Section Streams.
Context `{StrMethods}.
Variable World : Type.
Variable stream :
  World -> Runnable -> string -> string ->
  list chunk * option exception * World.

(** A chunk whose text is truthy and is not a [str] stops the demo with
    [TypeError]: the chunks before it were shown, the chunks after it are
    never looked at, and the text gathered so far is not printed. *)
Theorem consume_type_error (before after : list chunk) (c : chunk)
    (failure : option exception) (text_buffer : string) :
  Forall textual before -> ~ textual c ->
  fst (consume (before ++ c :: after) failure text_buffer)
    = fst (consume before None text_buffer) /\
  exists msg,
    snd (consume (before ++ c :: after) failure text_buffer)
      = Raise (TypeError msg).
Proof.
  intros F N. rewrite (consume_app_textual before (c :: after) failure _ F).
  simpl. unfold textual in N.
  destruct (chunk_text c) as [|t|[|x items]]; simpl in *;
    try (now destruct N).
  split; [apply app_nil_r | eauto].
Qed.

(** An exception of the stream ends the demo: the updates of the chunks
    that came first are shown, no answer is printed, no further line is read
    and the exception propagates. *)
Theorem demo_loop_stream_raises (pipeline : Runnable) (session_id : string)
    (w w' : World) (s : string) (rest : list stdin_event)
    (chunks : list chunk) (e : exception) :
  s <> "" -> lower (strip s) <> "exit" ->
  stream w pipeline s session_id = (chunks, Some e, w') ->
  Forall textual chunks ->
  demo_loop World stream pipeline session_id w (Line s :: rest)
  = (PrintPrompt :: StatusSleep 3 :: StreamCall s session_id
       :: fst (consume chunks None ""),
     Raise e).
Proof.
  intros Ne Nx S F. simpl.
  apply String.eqb_neq in Nx. rewrite Nx.
  apply str_truthy_true in Ne. rewrite Ne, S.
  pose proof (consume_app_textual chunks [] (Some e) "" F) as C.
  rewrite app_nil_r in C. rewrite C. simpl. now rewrite app_nil_r.
Qed.

(** A stream of falsy chunks prints nothing: no update and no answer, and
    the loop goes on with the next line.  The default result of the end
    gate, [{"output": []}], is such a chunk, and so are an empty text and a
    dictionary without ["output"]. *)
Theorem demo_loop_falsy_chunks (pipeline : Runnable) (session_id : string)
    (w w' : World) (s : string) (rest : list stdin_event)
    (chunks : list chunk) :
  (s <> "" -> lower (strip s) <> "exit" ->
   stream w pipeline s session_id = (chunks, None, w') ->
   Forall (fun c => py_truthy (chunk_text c) = false) chunks ->
   demo_loop World stream pipeline session_id w (Line s :: rest)
   = (PrintPrompt :: StatusSleep 3 :: StreamCall s session_id
        :: fst (demo_loop World stream pipeline session_id w' rest),
      snd (demo_loop World stream pipeline session_id w' rest))) /\
  py_truthy (chunk_text (ChunkDict {[ "output" := PyList [] ]})) = false /\
  py_truthy (chunk_text (ChunkStr "")) = false /\
  py_truthy (chunk_text (ChunkDict ∅)) = false.
Proof.
  split; [|repeat split].
  intros Ne Nx S F. simpl.
  apply String.eqb_neq in Nx. rewrite Nx.
  apply str_truthy_true in Ne. rewrite Ne, S.
  assert (C : forall buf, consume chunks None buf = ([], Ok buf)).
  { clear S. induction F as [|c cs Hc _ IH]; intros buf; [reflexivity|].
    simpl. rewrite Hc. apply IH. }
  rewrite C. simpl.
  now destruct (demo_loop World stream pipeline session_id w' rest).
Qed.

Lemma stream_calls_app (a b : list console_event) :
  stream_calls (a ++ b) = stream_calls a ++ stream_calls b.
Proof. unfold stream_calls. apply omap_app. Qed.

Lemma prompts_app (a b : list console_event) :
  prompts (a ++ b) = (prompts a + prompts b)%nat.
Proof. unfold prompts. now rewrite omap_app, length_app. Qed.

Lemma live_updates_silent (evs : list console_event) :
  (forall ev, ev ∈ evs -> exists t, ev = LiveUpdate t) ->
  stream_calls evs = [] /\ prompts evs = 0%nat.
Proof.
  induction evs as [|x evs IH]; intros A; [split; reflexivity|].
  destruct (A x) as [t ->]; [apply elem_of_cons; now left|].
  change (stream_calls evs = [] /\ prompts evs = 0%nat).
  apply IH. intros ev Hev. apply A, elem_of_cons. now right.
Qed.

Lemma consume_textual_updates (chunks : list chunk) (buf : string) :
  Forall textual chunks ->
  (forall ev, ev ∈ fst (consume chunks None buf) -> exists t, ev = LiveUpdate t)
  /\ exists text, snd (consume chunks None buf) = Ok text.
Proof.
  intros F. revert buf. induction F as [|c rest Hc _ IH]; intros buf.
  - simpl. split; [|eauto]. intros ev Hev. now apply elem_of_nil in Hev.
  - rewrite (consume_cons_textual c rest None buf Hc).
    destruct (py_truthy (chunk_text c)); [|apply IH].
    destruct (IH (buf +:+ chunk_str c)) as [E T]. simpl. split; [|exact T].
    intros ev Hev. apply elem_of_cons in Hev as [-> | Hev]; eauto.
Qed.

(** With a stream that never raises and yields only texts or falsy chunks,
    the demo streams exactly the lines of the longest prefix of the input on
    which the loop goes on, in order; it shows one prompt for each of them
    and one more; and it leaves unread what follows the line, or the
    interrupt, that ended it. *)
Theorem demo_loop_reads (pipeline : Runnable) (session_id : string)
    (w : World) (stdin : list stdin_event) :
  (forall w m, well_behaved World (stream w pipeline m session_id)) ->
  let run := demo_loop World stream pipeline session_id w stdin in
  stream_calls (fst run) = read_lines stdin /\
  prompts (fst run) = S (length (read_lines stdin)) /\
  snd run = Ok (drop (S (length (read_lines stdin))) stdin).
Proof.
  intros WB. revert w. induction stdin as [|ev rest IH]; intros w.
  - repeat split.
  - destruct ev as [s|]; [|repeat split].
    cbv zeta. simpl demo_loop. simpl read_lines. unfold continues.
    destruct (String.eqb (lower (strip s)) "exit") eqn:X.
    + rewrite andb_false_r. repeat split.
    + destruct (str_truthy s) eqn:Ts; [|repeat split].
      destruct (WB w s) as [Wf Wt].
      destruct (stream w pipeline s session_id) as [[chunks failure] w'].
      simpl in Wf, Wt. subst failure.
      destruct (consume_textual_updates chunks "" Wt) as (Cl & text & Cs).
      destruct (live_updates_silent _ Cl) as [Sc Sp].
      destruct (consume chunks None "") as [shown r]. simpl in Cs, Sc, Sp.
      subst r. specialize (IH w').
      destruct (demo_loop World stream pipeline session_id w' rest)
        as [later r']. cbv zeta in IH. simpl in IH.
      destruct IH as (I1 & I2 & I3).
      simpl.
      assert (Pc : forall l, prompts (PrintPrompt :: StatusSleep 3
                                        :: StreamCall s session_id :: l)
                             = S (prompts l)) by reflexivity.
      rewrite Pc, !stream_calls_app, !prompts_app.
      rewrite Sc, Sp, I1, I2, I3. simpl.
      assert (B : stream_calls (if str_truthy text
                                then _print_output text else []) = [] /\
                  prompts (if str_truthy text
                           then _print_output text else []) = 0%nat)
        by (destruct (str_truthy text); split; reflexivity).
      destruct B as [-> ->]. repeat split.
Qed.

End Streams.

(** ** cli/__init__.py: the start of the demo *)

(** With the pipeline that [build_pipeline] returns for its index and
    folder, [demo] reads the last ten turns of the session through the
    history store of that pipeline, whose database is
    [sqlite:///folder/index.sqlite], and only then prompts.  A failed read
    ends the demo with its exception before anything is shown or read from
    the input; after a successful one, the messages read are shown in order
    in front of the loop, a prompt and the content for a [HumanMessage], a
    bubble for an [AIMessage], and nothing for any other message. *)
Theorem demo_startup `{StrMethods} (World : Type)
    (stream : World -> Runnable -> string -> string ->
              list chunk * option exception * World)
    (read : World -> HistoryStore -> string -> option nat ->
            result (list message))
    (to_messages : string -> list string) (environ : gmap string string)
    (session_id index folder : string) (w : World)
    (stdin : list stdin_event) (n n' : oid) (pipeline : Runnable) :
  build_pipeline to_messages environ None None index folder n
    = Ok (pipeline, n') ->
  let run := demo World stream read to_messages environ session_id index
               folder w stdin n in
  exists h,
    history_store_of pipeline = Some h /\
    db_url h = "sqlite:///" +:+ folder +:+ "/" +:+ index +:+ ".sqlite" /\
    (forall e, read w h session_id (Some 10%nat) = Raise e ->
       run = ([], Raise e)) /\
    (forall nearly_history,
       read w h session_id (Some 10%nat) = Ok nearly_history ->
       run = (flat_map (fun hist =>
                match hist with
                | HumanMessage c => [PrintPrompt; PrintLine c]
                | AIMessage c => [PrintBubble c]
                | OtherMessage _ => []
                end) nearly_history
                ++ fst (demo_loop World stream pipeline session_id w stdin),
              snd (demo_loop World stream pipeline session_id w stdin))).
Proof.
  intros B run. subst run. unfold demo. rewrite B.
  destruct (build_pipeline_shape to_messages environ None None index folder n)
    as (ep & em & cp & cm & E).
  cbv zeta in E. rewrite E in B. injection B as <- <-.
  eexists. split; [reflexivity|]. split; [reflexivity|].
  cbn [history_store_of]. cbv beta iota. split.
  - now intros e ->.
  - intros nearly_history ->.
    now destruct (demo_loop _ _ _ _ _ _).
Qed.

(** ** cli/__init__.py: the demo on concrete streams *)

(** The start of the demo, on a store that cannot be read and on a store
    that holds three messages. *)
Lemma demo_startup_witness :
  demo unit silent_stream (fun _ _ _ _ => Raise NotFoundError) (fun _ => []) ∅
    "s1" "demo" DEF_FOLDER_PATH tt [Line "hello"] 0%nat
  = ([], Raise NotFoundError) /\
  demo unit silent_stream
    (fun _ _ _ _ => Ok [HumanMessage "hello"; OtherMessage "x"; AIMessage "hi"])
    (fun _ => []) ∅ "s1" "demo" DEF_FOLDER_PATH tt [] 0%nat
  = ([PrintPrompt; PrintLine "hello"; PrintBubble "hi";
      PrintPrompt; StdoutWrite erase_line], Ok []).
Proof.
  destruct (build_pipeline_shape (fun _ => []) ∅ None None "demo"
              DEF_FOLDER_PATH 0%nat) as (ep & em & cp & cm & E).
  cbv zeta in E. split.
  - destruct (demo_startup unit silent_stream
                (fun _ _ _ _ => Raise NotFoundError) (fun _ => []) ∅
                "s1" "demo" DEF_FOLDER_PATH tt [Line "hello"] 0%nat _ _ E)
      as (h & _ & _ & F & _).
    exact (F NotFoundError eq_refl).
  - destruct (demo_startup unit silent_stream
                (fun _ _ _ _ => Ok [HumanMessage "hello"; OtherMessage "x";
                                    AIMessage "hi"]) (fun _ => []) ∅
                "s1" "demo" DEF_FOLDER_PATH tt [] 0%nat _ _ E)
      as (h & _ & _ & _ & S).
    rewrite (S _ eq_refl). reflexivity.
Defined.

Lemma consume_joins_witness :
  snd (consume [ChunkStr "Hel"; ChunkDict {[ "output" := PyList [] ]};
                ChunkDict {[ "output" := PyStr "lo" ]}] None "")
  = Ok "Hello".
Proof.
  refine (proj1 (consume_joins
                   [ChunkStr "Hel"; ChunkDict {[ "output" := PyList [] ]};
                    ChunkDict {[ "output" := PyStr "lo" ]}] "" _)).
  repeat constructor.
Defined.

Lemma consume_type_error_witness :
  fst (consume ([ChunkStr "Hel"]
                  ++ ChunkDict {[ "output" := PyList [PyStr "lo"] ]}
                  :: [ChunkStr "!"]) None "")
  = [LiveUpdate "Hel"].
Proof.
  refine (proj1 (consume_type_error [ChunkStr "Hel"] [ChunkStr "!"]
                   (ChunkDict {[ "output" := PyList [PyStr "lo"] ]}) None ""
                   _ _)).
  - repeat constructor.
  - vm_compute. discriminate.
Defined.

Lemma demo_loop_stream_raises_witness :
  demo_loop unit broken_stream (StringSingleTurnChat 0%nat "zh" None None [])
    "s1" tt [Line "hello"; Line "again"]
  = ([PrintPrompt; StatusSleep 3; StreamCall "hello" "s1"; LiveUpdate "hello"],
     Raise StorageError).
Proof.
  refine (demo_loop_stream_raises unit broken_stream
            (StringSingleTurnChat 0%nat "zh" None None []) "s1" tt tt "hello"
            [Line "again"] [ChunkStr "hello"] StorageError _ _ eq_refl _).
  - discriminate.
  - vm_compute. discriminate.
  - repeat constructor.
Defined.

Lemma demo_loop_falsy_chunks_witness :
  demo_loop unit silent_stream (StringSingleTurnChat 0%nat "zh" None None [])
    "s1" tt [Line "Hel"]
  = ([PrintPrompt; StatusSleep 3; StreamCall "Hel" "s1"; PrintPrompt;
      StdoutWrite erase_line],
     Ok []).
Proof.
  refine (proj1 (demo_loop_falsy_chunks unit silent_stream
                   (StringSingleTurnChat 0%nat "zh" None None []) "s1" tt tt
                   "Hel" [] [ChunkDict {[ "output" := PyList [] ]}])
            _ _ eq_refl _).
  - discriminate.
  - vm_compute. discriminate.
  - repeat constructor.
Defined.

Lemma demo_loop_reads_witness :
  let run := demo_loop unit three_chunks
               (StringSingleTurnChat 0%nat "zh" None None []) "s1" tt
               [Line "one"; Line "   "; Line " Exit"; Line "two"] in
  stream_calls (fst run) = ["one"; "   "] /\
  prompts (fst run) = 3%nat /\
  snd run = Ok [Line "two"].
Proof.
  refine (demo_loop_reads unit three_chunks
            (StringSingleTurnChat 0%nat "zh" None None []) "s1" tt
            [Line "one"; Line "   "; Line " Exit"; Line "two"] _).
  intros w m. split; [reflexivity|]. repeat constructor.
Defined.
